(** * Elering Estfeed: API client and history store

    A shallow embedding of [custom_components/elering_estfeed/api.py],
    [history.py] and [const.py], and of the parts of [coordinator.py],
    [config_flow.py] and [__init__.py] that use them, with the
    properties of the token cache, the rate limiter, the response
    normaliser, the history store, the coordinator's update and the
    first step of the config flow.

    Conventions of the embedding.
    - A Python [float] is an IEEE 754 binary64 number, Rocq's primitive
      [float]: the readings of [time.monotonic()] and what is computed
      from them round as in the code, and [x + n] with an [int] [n]
      converts [n] first, which raises [OverflowError] beyond the range
      of a float.
    - A [datetime] is its number of microseconds since the epoch ([Z]);
      [timedelta(days=d)] is [d * 86400 * 10^6] microseconds.  The range
      limits of [datetime] are not modelled.
    - Clock readings and the replies of the network are inputs of the
      operations; what an operation does to the outside (sleeping, HTTP
      requests, writes to the store) is recorded in the value it returns.
    - Python exceptions are values of [exn]; an operation returns an
      [outcome], and the mutations done before a [raise] are kept. *)

From Stdlib Require Import ZArith String List Lia Sorting.Sorted.
From Stdlib Require Import Structures.OrderedTypeEx.
From Stdlib Require Floats.PrimFloat Floats.SpecFloat Floats.FloatOps.
From stdpp Require Import base gmap sets list strings.
From Equations Require Import Equations.

Import (notations) PrimFloat.
Import PrimFloat.PrimFloatNotations.

Set Warnings "-clear-no-such-hyp".
Set Warnings "-inexact-float".

Local Open Scope string_scope.
Local Open Scope list_scope.
Local Open Scope Z_scope.

(** ** const.py *)

Module Const.

Definition API_MAX_WINDOW_DAYS : Z := 31.
Definition TOKEN_EXPIRY_MARGIN : Z := 30.
Definition RATE_LIMIT_SECONDS : Z := 5.
Definition METERING_POINTS_PATH : string := "/api/public/v1/metering-point-eics".
Definition METERING_DATA_PATH : string := "/api/public/v1/metering-data".

End Const.

(** ** The Python values the code handles *)

Module Py.

(** Parsed JSON, as [json.loads] builds it. A dict keeps its entries in
    order; [dict_lookup] finds the binding of a key. *)
#[warnings="-register-all"] Inductive json :=
| JNull
| JBool (b : bool)
| JInt (n : Z)
| JFloat (x : PrimFloat.float)
| JStr (s : string)
| JList (l : list json)
| JDict (d : list (string * json)).

(** Truth value of an object ([if x], [not x], [x or y]). *)
Definition truthy (j : json) : bool :=
  match j with
  | JNull => false
  | JBool b => b
  | JInt n => negb (n =? 0)
  | JFloat x => negb (x =? 0)%float
  | JStr s => negb (String.eqb s "")
  | JList l => match l with [] => false | _ => true end
  | JDict d => match d with [] => false | _ => true end
  end.

Definition str_truthy (s : string) : bool := negb (String.eqb s "").

Fixpoint dict_lookup (k : string) (d : list (string * json)) : option json :=
  match d with
  | [] => None
  | (k', v) :: d' => if String.eqb k k' then Some v else dict_lookup k d'
  end.

(** [d.get(k)] *)
Definition dict_get (k : string) (d : list (string * json)) : json :=
  default JNull (dict_lookup k d).

(** [k in d] *)
Definition dict_contains (k : string) (d : list (string * json)) : bool :=
  match dict_lookup k d with Some _ => true | None => false end.

(** [a or b] *)
Definition py_or (a b : json) : json := if truthy a then a else b.

(** [j == s] for a [str] [s]: only an equal string compares equal. *)
Definition eq_str (j : json) (s : string) : bool :=
  match j with JStr s' => String.eqb s' s | _ => false end.

(** [isinstance(j, list)] *)
Definition is_list (j : json) : bool :=
  match j with JList _ => true | _ => false end.

(** Exceptions. [ClientError] is [aiohttp.ClientError]; the three
    [Elering...] classes are those of api.py; the others are built-in
    ([TimeoutError] is also [asyncio.TimeoutError], which is not an
    [aiohttp.ClientError]). All of them derive from [Exception]. *)
Inductive exn :=
| EleringEstfeedError
| EleringAuthError
| EleringConnectionError
| ClientError
| ValueError
| TypeError
| AttributeError
| OSError
| TimeoutError
| OverflowError.

Inductive outcome (A : Type) :=
| Ok (a : A)
| Raise (e : exn).
Arguments Ok {A} a.
Arguments Raise {A} e.

Definition is_ok {A} (o : outcome A) : bool :=
  match o with Ok _ => true | Raise _ => false end.

(** [float(n)] of an [int] [n], as [x + n] and [x - n] with a float [x]
    take it: the nearest float, ties to even. *)
Definition float_of_int (n : Z) : PrimFloat.float :=
  FloatOps.SF2Prim
    (SpecFloat.binary_normalize FloatOps.prec FloatOps.emax n 0 false).

(** The conversion raises [OverflowError] ("int too large to convert to
    float") when the nearest float is not finite. *)
Definition int_overflows (n : Z) : bool := PrimFloat.is_infinity (float_of_int n).

(** [x + n] and [x - n] for a float [x] and an [int] [n]. The sum of
    two floats does not raise: it is infinite when it overflows. *)
Definition float_add_int (x : PrimFloat.float) (n : Z) : outcome PrimFloat.float :=
  if int_overflows n then Raise OverflowError else Ok (x + float_of_int n)%float.

Definition float_sub_int (x : PrimFloat.float) (n : Z) : outcome PrimFloat.float :=
  if int_overflows n then Raise OverflowError else Ok (x - float_of_int n)%float.

(** [int(x)] of a float: towards zero; [OverflowError] for an infinity,
    [ValueError] for a NaN. *)
Definition int_of_float (x : PrimFloat.float) : outcome Z :=
  match FloatOps.Prim2SF x with
  | SpecFloat.S754_zero _ => Ok 0
  | SpecFloat.S754_finite s m e =>
      let v := if 0 <=? e then Z.shiftl (Z.pos m) e else Z.shiftr (Z.pos m) (- e) in
      Ok (if s then - v else v)
  | SpecFloat.S754_infinity _ => Raise OverflowError
  | SpecFloat.S754_nan => Raise ValueError
  end.

(** [datetime], in microseconds. *)
Definition datetime := Z.
Definition timedelta_days (d : Z) : Z := d * 86400000000.

End Py.

(** ** history.py *)

Module History.
Import Py.

(** A measurement dict. Its ["timestamp"] entry, when present, is a
    string; [fields] are the other entries. *)
Record Measurement := {
  timestamp : option string;
  fields : list (string * json)
}.

(** [m.get("timestamp", "")] *)
Definition ts_key (m : Measurement) : string := default "" (timestamp m).

(** [list.sort(key=lambda m: m.get("timestamp", ""))]: the sort is stable
    and compares keys with [<] only. [sort_insert x l] puts [x], which
    came before the elements of [l], in front of the first element whose
    key is not below its own. *)
Fixpoint sort_insert (x : Measurement) (l : list Measurement) : list Measurement :=
  match l with
  | [] => [x]
  | y :: l' =>
      if String.ltb (ts_key y) (ts_key x) then y :: sort_insert x l'
      else x :: y :: l'
  end.

Fixpoint sort_by_timestamp (l : list Measurement) : list Measurement :=
  match l with
  | [] => []
  | x :: l' => sort_insert x (sort_by_timestamp l')
  end.

(** Ascending by the sort key, and no key twice. *)
Definition ts_le (x y : Measurement) : Prop :=
  String.leb (ts_key x) (ts_key y) = true.

Definition sorted_asc (l : list Measurement) : Prop := StronglySorted ts_le l.

Definition unique_ts (l : list Measurement) : Prop := NoDup (map ts_key l).

(** The invariant of the cache. *)
Definition cache_inv (l : list Measurement) : Prop := unique_ts l /\ sorted_asc l.

(** The JSON document of the store: [{eic, last_fetch, point_count,
    measurements}], every key optional when it is read back;
    [doc_other] holds any other key. [last_fetch] stands for its
    [isoformat()] text. *)
Record StoredDoc := {
  doc_eic : option string;
  doc_last_fetch : option datetime;
  doc_point_count : option Z;
  doc_measurements : option (list Measurement);
  doc_other : list (string * json)
}.

(** A dict is true when it has a key. *)
Definition doc_truthy (d : StoredDoc) : bool :=
  match doc_eic d, doc_last_fetch d, doc_point_count d, doc_measurements d,
        doc_other d with
  | None, None, None, None, [] => false
  | _, _, _, _, _ => true
  end.

Record EleringHistoryStore := {
  _eic : string;
  _measurements : list Measurement;
  _last_fetch : option datetime
}.

(** [__init__] *)
Definition init (eic : string) : EleringHistoryStore :=
  {| _eic := eic; _measurements := []; _last_fetch := None |}.

Definition history_available (self : EleringHistoryStore) : bool :=
  (0 <? Z.of_nat (length (_measurements self))).

Definition history_points (self : EleringHistoryStore) : Z :=
  Z.of_nat (length (_measurements self)).

(** [async_load]; [data] is what [Store.async_load()] returned. *)
Definition async_load (self : EleringHistoryStore) (data : option StoredDoc)
  : EleringHistoryStore :=
  match data with
  | Some d =>
      if doc_truthy d then
        {| _eic := _eic self;
           _measurements := default [] (doc_measurements d);
           _last_fetch := doc_last_fetch d |}
      else self
  | None => self
  end.

(** The document [_async_save] hands to [Store.async_save]. *)
Definition save_doc (self : EleringHistoryStore) (now : datetime) : StoredDoc :=
  {| doc_eic := Some (_eic self);
     doc_last_fetch := Some now;
     doc_point_count := Some (Z.of_nat (length (_measurements self)));
     doc_measurements := Some (_measurements self);
     doc_other := [] |}.

(** The [for point in new_points] loop of [_merge], on the three
    variables it updates. *)
Fixpoint merge_loop (new_points : list Measurement)
    (measurements : list Measurement) (existing_ts : gset string) (added : Z)
  : list Measurement * gset string * Z :=
  match new_points with
  | [] => (measurements, existing_ts, added)
  | point :: rest =>
      let ts := ts_key point in
      if str_truthy ts && bool_decide (ts ∉ existing_ts) then
        merge_loop rest (measurements ++ [point]) ({[ts]} ∪ existing_ts) (added + 1)
      else merge_loop rest measurements existing_ts added
  end.

(** [_merge], returning the new cache and the [added] it logs. *)
Definition merge_points (measurements new_points : list Measurement)
  : list Measurement * Z :=
  let existing_ts : gset string := list_to_set (map ts_key measurements) in
  let '(ms, _, added) := merge_loop new_points measurements existing_ts 0 in
  (sort_by_timestamp ms, added).

Definition _merge (self : EleringHistoryStore) (new_points : list Measurement)
  : EleringHistoryStore :=
  {| _eic := _eic self;
     _measurements := fst (merge_points (_measurements self) new_points);
     _last_fetch := _last_fetch self |}.

Definition merge_added (self : EleringHistoryStore) (new_points : list Measurement) : Z :=
  snd (merge_points (_measurements self) new_points).

(** *** Fetch *)

(** A request window [(start, end)]. *)
Definition window : Type := datetime * datetime.

(** [min(chunk_start + timedelta(days=API_MAX_WINDOW_DAYS), end)] *)
Definition chunk_end_of (chunk_start end_ : datetime) : datetime :=
  Z.min (chunk_start + timedelta_days Const.API_MAX_WINDOW_DAYS) end_.

(** [Store.async_save(doc)] on the persisted document; [write_error] is
    the exception the write raises, if it does. *)
Definition store_async_save (write_error : option exn)
    (persisted : option StoredDoc) (doc : StoredDoc)
  : outcome unit * option StoredDoc :=
  match write_error with
  | Some e => (Raise e, persisted)
  | None => (Ok tt, Some doc)
  end.

(** The clock readings of one [async_fetch_history] and the behaviour of
    the storage during it. *)
Record fetch_env := {
  now_start : datetime;          (* datetime.now(timezone.utc) at the start *)
  now_save : datetime;           (* datetime.now(timezone.utc) in _async_save *)
  write_error : option exn
}.

(** [_async_save] *)
Definition _async_save (self : EleringHistoryStore) (env : fetch_env)
    (persisted : option StoredDoc) : outcome unit * option StoredDoc :=
  store_async_save (write_error env) persisted (save_doc self (now_save env)).

Section Fetch.

(** The API client together with the upstream service, in a state [W]:
    [self._client.async_get_metering_data(eic, start, end)] returns a
    list of points or raises. *)
Context {W : Type}.
Variable async_get_metering_data :
  W -> string -> datetime -> datetime -> outcome (list Measurement) * W.

(** The variables of the [while] loop, and the windows requested so far. *)
Record loop_state := {
  ls_world : W;
  ls_all_new : list Measurement;
  ls_requests : list window
}.

(** The [try] ... [except Exception] of one chunk. *)
Definition fetch_chunk (eic : string) (st : loop_state) (win : window) : loop_state :=
  match async_get_metering_data (ls_world st) eic win.1 win.2 with
  | (Ok chunk, w') =>
      {| ls_world := w';
         ls_all_new := ls_all_new st ++ chunk;
         ls_requests := ls_requests st ++ [win] |}
  | (Raise _, w') =>
      {| ls_world := w';
         ls_all_new := ls_all_new st;
         ls_requests := ls_requests st ++ [win] |}
  end.

(** [while chunk_start < end: ...; chunk_start = chunk_end] *)
Equations? fetch_loop (eic : string) (end_ chunk_start : datetime) (st : loop_state)
  : loop_state by wf (Z.to_nat (end_ - chunk_start)) lt :=
  fetch_loop eic end_ chunk_start st with decide (chunk_start < end_) => {
    | left _ =>
        fetch_loop eic end_ (chunk_end_of chunk_start end_)
          (fetch_chunk eic st (chunk_start, chunk_end_of chunk_start end_));
    | right _ => st }.
Proof.
  unfold chunk_end_of, timedelta_days, Const.API_MAX_WINDOW_DAYS. lia.
Qed.

(** What one call did: its result, the store object and the upstream
    after it, the persisted document, the windows requested and the
    documents handed to [Store.async_save]. *)
Record fetch_result := {
  fr_outcome : outcome unit;
  fr_self : EleringHistoryStore;
  fr_world : W;
  fr_persisted : option StoredDoc;
  fr_all_new : list Measurement;
  fr_requests : list window;
  fr_saves : list StoredDoc
}.

Definition async_fetch_history (self : EleringHistoryStore) (days : Z)
    (env : fetch_env) (w : W) (persisted : option StoredDoc) : fetch_result :=
  let end_ := now_start env in
  let start := end_ - timedelta_days days in
  let st := fetch_loop (_eic self) end_ start
              {| ls_world := w; ls_all_new := []; ls_requests := [] |} in
  match ls_all_new st with
  | [] =>
      {| fr_outcome := Ok tt; fr_self := self; fr_world := ls_world st;
         fr_persisted := persisted; fr_all_new := ls_all_new st;
         fr_requests := ls_requests st; fr_saves := [] |}
  | _ :: _ =>
      let self' := _merge self (ls_all_new st) in
      let '(r, persisted') := _async_save self' env persisted in
      {| fr_outcome := r; fr_self := self'; fr_world := ls_world st;
         fr_persisted := persisted'; fr_all_new := ls_all_new st;
         fr_requests := ls_requests st;
         fr_saves := [save_doc self' (now_save env)] |}
  end.

(** What the upstream answers to the windows [ws] asked one after the
    other from the state [w], and the points of the answers that are
    not failures, in order. *)
Fixpoint chunk_outcomes (eic : string) (ws : list window) (w : W)
  : list (outcome (list Measurement)) :=
  match ws with
  | [] => []
  | win :: ws' =>
      let '(o, w') := async_get_metering_data w eic win.1 win.2 in
      o :: chunk_outcomes eic ws' w'
  end.

Fixpoint fetched_points (os : list (outcome (list Measurement))) : list Measurement :=
  match os with
  | [] => []
  | Ok chunk :: os' => chunk ++ fetched_points os'
  | Raise _ :: os' => fetched_points os'
  end.

End Fetch.

(** The windows the [while] loop visits: the loop without its fetches. *)
Equations? chunk_windows (end_ chunk_start : datetime) : list window
  by wf (Z.to_nat (end_ - chunk_start)) lt :=
  chunk_windows end_ chunk_start with decide (chunk_start < end_) => {
    | left _ =>
        (chunk_start, chunk_end_of chunk_start end_)
        :: chunk_windows end_ (chunk_end_of chunk_start end_);
    | right _ => [] }.
Proof.
  unfold chunk_end_of, timedelta_days, Const.API_MAX_WINDOW_DAYS. lia.
Qed.

(** [tiles s e l]: the windows of [l] follow one another from [s] to [e]
    with no gap and no overlap, none is empty and none is longer than
    [API_MAX_WINDOW_DAYS] days. *)
Fixpoint tiles (s e : datetime) (l : list window) : Prop :=
  match l with
  | [] => s = e
  | (a, b) :: l' =>
      a = s /\ a < b /\ b - a <= timedelta_days Const.API_MAX_WINDOW_DAYS /\
      tiles b e l'
  end.

(** *** The life of a store

    What the integration does with the store of one EIC and with its
    persisted document. [async_setup_entry] builds the object and loads
    the document; the backfill and the [fetch_history] service fetch;
    [_merge] and [_async_save] run inside a fetch, and are steps of
    their own here as well. Nothing but [_async_save] writes the
    document. *)
Section Life.
Context {W : Type}.
Variable async_get_metering_data :
  W -> string -> datetime -> datetime -> outcome (list Measurement) * W.

Inductive store_op :=
| OpRestart                                       (* a new object: __init__ *)
| OpLoad                                          (* async_load *)
| OpMerge (new_points : list Measurement)         (* _merge *)
| OpSave (env : fetch_env)                        (* _async_save *)
| OpFetch (days : Z) (env : fetch_env) (w : W).   (* async_fetch_history *)

(** The store object and the persisted document. *)
Definition store_state : Type := EleringHistoryStore * option StoredDoc.

Definition run_op (st : store_state) (op : store_op) : store_state :=
  match op with
  | OpRestart => (init (_eic st.1), st.2)
  | OpLoad => (async_load st.1 st.2, st.2)
  | OpMerge new_points => (_merge st.1 new_points, st.2)
  | OpSave env => (st.1, (_async_save st.1 env st.2).2)
  | OpFetch days env w =>
      let r := async_fetch_history async_get_metering_data st.1 days env w st.2 in
      (fr_self r, fr_persisted r)
  end.

Definition run_ops (ops : list store_op) (st : store_state) : store_state :=
  fold_left run_op ops st.

(** A new store for [eic], nothing persisted yet. *)
Definition new_store (eic : string) : store_state := (init eic, None).

(** The cache has the invariant, and so has the list of the persisted
    document. *)
Definition store_inv (st : store_state) : Prop :=
  cache_inv (_measurements st.1) /\
  match st.2 with
  | Some d => cache_inv (default [] (doc_measurements d))
  | None => True
  end.

End Life.

End History.

(** ** api.py *)

Module Api.
Import Py Const.

Definition _RL_HEADER_LIMIT : string := "X-RateLimit-Limit".
Definition _RL_HEADER_REMAINING : string := "X-RateLimit-Remaining".
Definition _RL_HEADER_RESET : string := "X-RateLimit-Reset".

(** The built-in [int] on a [str]: [Some n], or [None] for [ValueError]. *)
Class Builtins := { int_of_str : string -> option Z }.

(** What the client does to the outside. *)
Inductive event :=
| Sleep (wait : PrimFloat.float)
| TokenPost (client_id client_secret : string)
| ApiRequest (method url : string) (token : json) (params : list (string * string)).

(** What an HTTP call does: it raises (also while the body is read), or
    there is a response. The exception is [ClientError] when aiohttp
    reports a failure of the connection, [TimeoutError] when the timeout
    of the session passes, or any other. [parsed] is what
    [resp.json(content_type=None)] returns, [None] when the body is not
    JSON. *)
Inductive http_reply :=
| Fails (e : exn)
| Response (status : Z) (headers : gmap string string) (body : string)
    (parsed : option json).

Record EleringEstfeedApiClient := {
  _api_host : string;
  _client_id : string;
  _client_secret : string;
  _access_token : option json;
  _token_expiry : PrimFloat.float;
  _next_allowed_mono : PrimFloat.float;
  _last_request_time : option datetime;
  _blocked_count : Z;
  _rate_limit_headers : gmap string Z
}.

(** [__init__]; [api_host] is taken with its trailing slashes removed. *)
Definition init (api_host client_id client_secret : string) : EleringEstfeedApiClient :=
  {| _api_host := api_host; _client_id := client_id; _client_secret := client_secret;
     _access_token := None; _token_expiry := 0;
     _next_allowed_mono := 0; _last_request_time := None;
     _blocked_count := 0; _rate_limit_headers := ∅ |}.

Definition set_token (tok : option json) (c : EleringEstfeedApiClient) :=
  {| _api_host := _api_host c; _client_id := _client_id c;
     _client_secret := _client_secret c;
     _access_token := tok; _token_expiry := _token_expiry c;
     _next_allowed_mono := _next_allowed_mono c;
     _last_request_time := _last_request_time c;
     _blocked_count := _blocked_count c;
     _rate_limit_headers := _rate_limit_headers c |}.

Definition set_token_expiry (t : PrimFloat.float) (c : EleringEstfeedApiClient) :=
  {| _api_host := _api_host c; _client_id := _client_id c;
     _client_secret := _client_secret c;
     _access_token := _access_token c; _token_expiry := t;
     _next_allowed_mono := _next_allowed_mono c;
     _last_request_time := _last_request_time c;
     _blocked_count := _blocked_count c;
     _rate_limit_headers := _rate_limit_headers c |}.

Definition set_next_allowed_mono (t : PrimFloat.float) (c : EleringEstfeedApiClient) :=
  {| _api_host := _api_host c; _client_id := _client_id c;
     _client_secret := _client_secret c;
     _access_token := _access_token c; _token_expiry := _token_expiry c;
     _next_allowed_mono := t;
     _last_request_time := _last_request_time c;
     _blocked_count := _blocked_count c;
     _rate_limit_headers := _rate_limit_headers c |}.

Definition set_last_request_time (t : option datetime) (c : EleringEstfeedApiClient) :=
  {| _api_host := _api_host c; _client_id := _client_id c;
     _client_secret := _client_secret c;
     _access_token := _access_token c; _token_expiry := _token_expiry c;
     _next_allowed_mono := _next_allowed_mono c;
     _last_request_time := t;
     _blocked_count := _blocked_count c;
     _rate_limit_headers := _rate_limit_headers c |}.

Definition set_blocked_count (n : Z) (c : EleringEstfeedApiClient) :=
  {| _api_host := _api_host c; _client_id := _client_id c;
     _client_secret := _client_secret c;
     _access_token := _access_token c; _token_expiry := _token_expiry c;
     _next_allowed_mono := _next_allowed_mono c;
     _last_request_time := _last_request_time c;
     _blocked_count := n;
     _rate_limit_headers := _rate_limit_headers c |}.

Definition set_rate_limit_headers (h : gmap string Z) (c : EleringEstfeedApiClient) :=
  {| _api_host := _api_host c; _client_id := _client_id c;
     _client_secret := _client_secret c;
     _access_token := _access_token c; _token_expiry := _token_expiry c;
     _next_allowed_mono := _next_allowed_mono c;
     _last_request_time := _last_request_time c;
     _blocked_count := _blocked_count c;
     _rate_limit_headers := h |}.

(** *** The monad of the client's methods

    A method reads and writes [self], may raise, and leaves a trace of
    events. A raise keeps the mutations and the events before it. *)
Definition M (A : Type) : Type :=
  EleringEstfeedApiClient -> outcome A * EleringEstfeedApiClient * list event.

#[export] Instance M_ret : MRet M := fun A a self => (Ok a, self, []).

#[export] Instance M_bind : MBind M := fun A B k m self =>
  match m self with
  | (Ok a, self', tr) =>
      match k a self' with
      | (r, self'', tr') => (r, self'', tr ++ tr')
      end
  | (Raise e, self', tr) => (Raise e, self', tr)
  end.

#[export] Instance M_throw : MThrow exn M := fun A e self => (Raise e, self, []).

Definition get_self : M EleringEstfeedApiClient := fun self => (Ok self, self, []).

Definition modify (f : EleringEstfeedApiClient -> EleringEstfeedApiClient) : M unit :=
  fun self => (Ok tt, f self, []).

Definition emit (ev : event) : M unit := fun self => (Ok tt, self, [ev]).

(** [try: body  except ...: handler] *)
Definition try_except {A} (body : M A) (handler : exn -> M A) : M A :=
  fun self =>
    match body self with
    | (Ok a, self', tr) => (Ok a, self', tr)
    | (Raise e, self', tr) =>
        match handler e self' with
        | (r, self'', tr') => (r, self'', tr ++ tr')
        end
    end.

(** The two [except] clauses of both request methods:
    [except EleringEstfeedError: raise] and
    [except aiohttp.ClientError as err: raise EleringConnectionError]. *)
Definition reraise_client_error {A} (e : exn) : M A :=
  match e with
  | ClientError => mthrow EleringConnectionError
  | _ => mthrow e
  end.

Definition status_in_401_403 (status : Z) : bool := (status =? 401) || (status =? 403).

Section Client.
Context {builtins : Builtins}.

(** [int(x)] on a parsed JSON value. *)
Definition py_int (j : json) : outcome Z :=
  match j with
  | JInt n => Ok n
  | JBool b => Ok (if b then 1 else 0)
  | JFloat x => int_of_float x
  | JStr s => match int_of_str s with Some n => Ok n | None => Raise ValueError end
  | JNull | JList _ | JDict _ => Raise TypeError
  end.

Definition lift_outcome {A} (o : outcome A) : M A :=
  match o with Ok a => mret a | Raise e => mthrow e end.

(** *** Authentication *)

Definition async_get_access_token (now : PrimFloat.float) (reply : http_reply)
  : M json :=
  self ← get_self;
  match _access_token self, (now <? _token_expiry self)%float with
  | Some tok, true => mret tok
  | _, _ =>
      result ← try_except
        (emit (TokenPost (_client_id self) (_client_secret self));;
         match reply with
         | Fails e => mthrow e
         | Response status _ body parsed =>
             if status_in_401_403 status then mthrow EleringAuthError
             else if negb (status =? 200) then mthrow EleringEstfeedError
             else match parsed with
                  | Some j => mret j
                  | None => mthrow ValueError
                  end
         end)
        reraise_client_error;
      match result with
      | JDict d =>
          let access_token := dict_get "access_token" d in
          if negb (truthy access_token) then mthrow EleringAuthError
          else
            expires_in ← lift_outcome
              (py_int (default (JInt 300) (dict_lookup "expires_in" d)));
            modify (set_token (Some access_token));;
            sum ← lift_outcome (float_add_int now expires_in);
            expiry ← lift_outcome (float_sub_int sum TOKEN_EXPIRY_MARGIN);
            modify (set_token_expiry expiry);;
            mret access_token
      | _ => mthrow AttributeError
      end
  end.

(** *** Rate limiting *)

Definition _async_enforce_rate_limit (now : PrimFloat.float) : M unit :=
  self ← get_self;
  if (now <? _next_allowed_mono self)%float then
    let wait := (_next_allowed_mono self - now)%float in
    modify (set_blocked_count (_blocked_count self + 1));;
    emit (Sleep wait)
  else mret tt.

Definition capture_one (headers : gmap string string)
    (new : gmap string Z) (hk : string * string) : gmap string Z :=
  match headers !! hk.1 with
  | Some value =>
      match int_of_str value with
      | Some n => <[hk.2 := n]> new
      | None => new
      end
  | None => new
  end.

Definition captured_headers (headers : gmap string string) : gmap string Z :=
  foldl (capture_one headers) ∅
    [(_RL_HEADER_LIMIT, "rate_limit_limit");
     (_RL_HEADER_REMAINING, "rate_limit_remaining");
     (_RL_HEADER_RESET, "rate_limit_reset")].

Definition _capture_rate_limit_headers (headers : gmap string string) : M unit :=
  modify (set_rate_limit_headers (captured_headers headers)).

(** *** Authenticated requests *)

(** The clock readings and network replies one [_async_request] meets,
    in the order it asks for them. *)
Record request_env := {
  mono_enforce : PrimFloat.float;          (* time.monotonic() in _async_enforce_rate_limit *)
  mono_token : PrimFloat.float;            (* time.monotonic() in async_get_access_token *)
  token_reply : http_reply;  (* the token endpoint, if it is asked *)
  api_reply : http_reply;    (* the API endpoint, if it is asked *)
  wall_done : datetime;      (* datetime.now(timezone.utc) after the body is read *)
  mono_done : PrimFloat.float              (* time.monotonic() after the body is read *)
}.

Definition _async_request (env : request_env) (method path : string)
    (params : list (string * string)) : M json :=
  _async_enforce_rate_limit (mono_enforce env);;
  token ← async_get_access_token (mono_token env) (token_reply env);
  self ← get_self;
  let url := _api_host self +:+ path in
  try_except
    (emit (ApiRequest method url token params);;
     match api_reply env with
     | Fails e => mthrow e
     | Response status headers body parsed =>
         modify (set_last_request_time (Some (wall_done env)));;
         next ← lift_outcome (float_add_int (mono_done env) RATE_LIMIT_SECONDS);
         modify (set_next_allowed_mono next);;
         _capture_rate_limit_headers headers;;
         if status_in_401_403 status then
           modify (set_token None);;
           mthrow EleringAuthError
         else if negb (status =? 200) then mthrow EleringEstfeedError
         else match parsed with
              | Some j => mret j
              | None => mthrow ValueError
              end
     end)
    reraise_client_error.

(** *** Sequences of calls *)

(** The calls made on a client: its three methods, and the assignment
    to [_next_allowed_mono] that the tests of the rate limiter make. *)
Inductive client_call :=
| CallEnforce (now : PrimFloat.float)
| CallToken (now : PrimFloat.float) (reply : http_reply)
| CallRequest (env : request_env) (method path : string)
    (params : list (string * string))
| Poke (next_allowed : PrimFloat.float).

Definition run_call (c : client_call) : M unit :=
  match c with
  | CallEnforce now => _async_enforce_rate_limit now
  | CallToken now reply => async_get_access_token now reply;; mret tt
  | CallRequest env method path params =>
      _async_request env method path params;; mret tt
  | Poke t => modify (set_next_allowed_mono t)
  end.

(** The calls one after the other; a call that raises does not stop
    the next ones. *)
Fixpoint run_calls (cs : list client_call) (self : EleringEstfeedApiClient)
  : EleringEstfeedApiClient * list event :=
  match cs with
  | [] => (self, [])
  | c :: cs' =>
      match run_call c self with
      | (_, self', tr) =>
          match run_calls cs' self' with
          | (self'', tr') => (self'', tr ++ tr')
          end
      end
  end.

End Client.

Definition is_sleep (ev : event) : bool :=
  match ev with Sleep _ => true | _ => false end.

Definition is_api_request (ev : event) : bool :=
  match ev with ApiRequest _ _ _ _ => true | _ => false end.

Definition is_token_post (ev : event) : bool :=
  match ev with TokenPost _ _ => true | _ => false end.

(** The number of waits in a trace. *)
Definition waits (tr : list event) : Z :=
  Z.of_nat (length (List.filter is_sleep tr)).

(** The HTTP request to the API was sent. *)
Definition request_issued (tr : list event) : bool := existsb is_api_request tr.

(** *** The response normaliser *)

(** [item["measurements"]] of a wrapper, or what the [for] loop of
    [_extract_measurements] returns on the items left to visit. *)
Fixpoint scan_items (data : list json) (eic : string) (items : list json) : json :=
  match items with
  | [] => JList []
  | item :: rest =>
      match item with
      | JDict d =>
          if dict_contains "measurements" d then
            let item_eic :=
              py_or (py_or (dict_get "meteringPointEic" d) (dict_get "eic" d))
                    (JStr "") in
            if eq_str item_eic eic then dict_get "measurements" d
            else if (Z.of_nat (length data) =? 1) then dict_get "measurements" d
            else scan_items data eic rest
          else JList data
      | _ => JList data
      end
  end.

(** The unwrapping of a top-level dict. *)
Definition unwrap_dict (d : list (string * json)) : json :=
  py_or (py_or (py_or (py_or (dict_get "meteringData" d) (dict_get "data" d))
                      (dict_get "content" d))
               (dict_get "measurements" d))
        (JList []).

Definition _extract_measurements (data : json) (eic : string) : json :=
  let data := match data with JDict d => unwrap_dict d | _ => data end in
  match data with
  | JList l => scan_items l eic l
  | _ => JList []
  end.

(** The words of the spec for the normaliser: a wrapper is an entry with
    a nested measurements field; its EIC field; the first key of the
    preference list with a true value. *)
Definition is_wrapper (item : json) : bool :=
  match item with
  | JDict d => dict_contains "measurements" d
  | _ => false
  end.

Definition wrapper_eic (item : json) : json :=
  match item with
  | JDict d =>
      if truthy (dict_get "meteringPointEic" d) then dict_get "meteringPointEic" d
      else if truthy (dict_get "eic" d) then dict_get "eic" d
      else JStr ""
  | _ => JStr ""
  end.

Definition wrapper_measurements (item : json) : json :=
  match item with
  | JDict d => dict_get "measurements" d
  | _ => JNull
  end.

Definition wrapper_for (eic : string) (item : json) : bool :=
  is_wrapper item && eq_str (wrapper_eic item) eic.

Definition other_wrapper (eic : string) (item : json) : bool :=
  is_wrapper item && negb (eq_str (wrapper_eic item) eic).

Fixpoint first_truthy (keys : list string) (d : list (string * json)) : json :=
  match keys with
  | [] => JList []
  | k :: keys' =>
      if truthy (dict_get k d) then dict_get k d else first_truthy keys' d
  end.

Definition unwrap_keys : list string :=
  ["meteringData"; "data"; "content"; "measurements"].

End Api.

(** ** Sample data *)

Module Samples.
Import Py History.

Definition day : Z := 86400000000.

Definition point (ts : string) (v : Z) : Measurement :=
  {| timestamp := Some ts;
     fields := [("energyIn", JInt v); ("unit", JStr "kWh")] |}.

Definition p0 : Measurement := point "2025-01-01T00:00:00+0000" 1.
Definition p1 : Measurement := point "2025-01-01T01:00:00+0000" 2.
Definition p2 : Measurement := point "2025-01-01T02:00:00+0000" 3.

Definition store0 : EleringHistoryStore :=
  {| _eic := "38ZEE-00000000-A"; _measurements := [p0]; _last_fetch := None |}.

Definition env0 : fetch_env :=
  {| now_start := 20100 * day; now_save := 20100 * day + 7; write_error := None |}.

(** An upstream that answers every window with the one point [p0]. *)
Definition upstream_p0 (w : unit) (eic : string) (s e : datetime)
  : outcome (list Measurement) * unit := (Ok [p0], w).

(** An upstream that counts the requests and fails the second one. *)
Definition upstream_flaky (w : nat) (eic : string) (s e : datetime)
  : outcome (list Measurement) * nat :=
  match w with
  | O => (Ok [p1], S w)
  | S O => (Raise EleringConnectionError, S w)
  | _ => (Ok [p2], S w)
  end.

(** A stand-in for the built-in [int] on strings of decimal digits. *)
Definition digit_of (a : Ascii.ascii) : option Z :=
  let n := Z.of_N (Ascii.N_of_ascii a) in
  if (48 <=? n) && (n <=? 57) then Some (n - 48) else None.

Fixpoint digits_of (acc : Z) (s : string) : option Z :=
  match s with
  | EmptyString => Some acc
  | String a s' =>
      match digit_of a with
      | Some d => digits_of (10 * acc + d) s'
      | None => None
      end
  end.

Definition decimal : Api.Builtins :=
  {| Api.int_of_str := fun s =>
       match s with EmptyString => None | _ => digits_of 0 s end |}.

Definition client0 : Api.EleringEstfeedApiClient :=
  Api.init "https://test.example.com" "id" "secret".

(** The client with the token of [token_ok] cached at time 10. *)
Definition client_cached : Api.EleringEstfeedApiClient :=
  Api.set_token_expiry (10 + 3600 - 30)%float
    (Api.set_token (Some (JStr "tok-1")) client0).

Definition token_ok : Api.http_reply :=
  Api.Response 200 ∅ "{...}"
    (Some (JDict [("access_token", JStr "tok-1"); ("expires_in", JInt 3600)])).

Definition token_without_expiry : Api.http_reply :=
  Api.Response 200 ∅ "{...}" (Some (JDict [("access_token", JStr "tok-2")])).

Definition token_empty : Api.http_reply :=
  Api.Response 200 ∅ "{...}"
    (Some (JDict [("access_token", JStr ""); ("expires_in", JInt 3600)])).

Definition rl_headers : gmap string string :=
  {[ "X-RateLimit-Limit" := "100"; "X-RateLimit-Remaining" := "42";
     "X-RateLimit-Reset" := "1700000000" ]}.

Definition env_ok : Api.request_env :=
  {| Api.mono_enforce := 10; Api.mono_token := 10;
     Api.token_reply := token_ok;
     Api.api_reply := Api.Response 200 rl_headers "[]" (Some (JList []));
     Api.wall_done := 20100 * day; Api.mono_done := 11 |}.

Definition env_unreachable : Api.request_env :=
  {| Api.mono_enforce := 10; Api.mono_token := 10;
     Api.token_reply := token_ok;
     Api.api_reply := Api.Fails ClientError;
     Api.wall_done := 20100 * day; Api.mono_done := 11 |}.

Definition wrapper (eic : string) (ms : list json) : json :=
  JDict [("eic", JStr eic); ("measurements", JList ms)].

Definition flat (ts : string) : json :=
  JDict [("timestamp", JStr ts); ("energyIn", JInt 1); ("unit", JStr "kWh")].

End Samples.

(** ** api.py: the rate-limit snapshot and the two endpoints *)

Module Endpoints.
Import Py Const Api.

(** A value of the snapshot: [None], an integer, the [isoformat()] text
    of a time, or that of a time [delta] seconds after [t]
    ([t + timedelta(seconds=delta)]). *)
Inductive info_value :=
| INone
| IInt (n : Z)
| ITime (t : datetime)
| ITimeAfter (t : datetime) (delta : PrimFloat.float).

(** [rate_limit_info]; [now_mono] and [now_wall] are its two clock
    readings. [info.update(d)] lets the entries of [d] win. *)
Definition rate_limit_info (now_mono : PrimFloat.float) (now_wall : datetime)
    (self : EleringEstfeedApiClient) : gmap string info_value :=
  let info : gmap string info_value :=
    {[ "last_request_time" :=
         match _last_request_time self with
         | Some t => ITime t
         | None => INone
         end;
       "blocked_requests_count" := IInt (_blocked_count self) ]} in
  let info :=
    if (now_mono <? _next_allowed_mono self)%float then
      let delta := (_next_allowed_mono self - now_mono)%float in
      <["next_allowed_time" := ITimeAfter now_wall delta]> info
    else <["next_allowed_time" := INone]> info in
  (IInt <$> _rate_limit_headers self) ∪ info.

(** The keys the header capture writes, and the three keys that are
    always in the snapshot. *)
Definition rate_limit_keys : gset string :=
  {[ "rate_limit_limit"; "rate_limit_remaining"; "rate_limit_reset" ]}.

Definition base_keys : gset string :=
  {[ "last_request_time"; "blocked_requests_count"; "next_allowed_time" ]}.

(** [len(x)] raises [TypeError] on a number, a boolean and [None]. *)
Definition has_len (j : json) : bool :=
  match j with
  | JStr _ | JList _ | JDict _ => true
  | _ => false
  end.

(** The stable sort of a list by a string key, as [History.sort_insert]. *)
Fixpoint sort_insert_by {A : Type} (key : A -> string) (x : A) (l : list A) : list A :=
  match l with
  | [] => [x]
  | y :: l' =>
      if String.ltb (key y) (key x) then y :: sort_insert_by key x l'
      else x :: y :: l'
  end.

Fixpoint sort_by {A : Type} (key : A -> string) (l : list A) : list A :=
  match l with
  | [] => []
  | x :: l' => sort_insert_by key x (sort_by key l')
  end.

Definition is_dict (j : json) : bool :=
  match j with JDict _ => true | _ => false end.

(** [m.get("timestamp", "")] on a dict. *)
Definition timestamp_of (m : json) : json :=
  match m with
  | JDict d => default (JStr "") (dict_lookup "timestamp" d)
  | _ => JNull
  end.

Definition is_str (j : json) : bool :=
  match j with JStr _ => true | _ => false end.

(** The sort key as a string, for the entries whose key is one. *)
Definition ts_string (m : json) : string :=
  match timestamp_of m with JStr s => s | _ => "" end.

(** Ascending by a string key. *)
Definition key_le {A : Type} (key : A -> string) (x y : A) : Prop :=
  String.leb (key x) (key y) = true.

Definition sorted_by_ts (l : list json) : Prop :=
  StronglySorted (key_le ts_string) l.

Section Calls.
Context {builtins : Builtins}.

(** [dt.strftime("%Y-%m-%dT%H:%M:%S%z")] of the standard library, for a
    time in UTC. *)
Variable strftime : datetime -> string.

(** What [list.sort] does with sort keys that are not all strings
    (numbers, [None], lists, a mix): the list it leaves or an exception,
    not described here. *)
Variable sort_other_keys : list json -> outcome (list json).

Definition _format_dt (dt : datetime) : string := strftime dt.

(** [measurements.sort(key=lambda m: m.get("timestamp", ""))] followed
    by the value of [measurements]. A value that is not a list has no
    [sort]; the keys are computed for every entry before any comparison,
    and an entry that is not a dict has no [get]; one entry or none
    needs no comparison. *)
Definition sort_measurements (measurements : json) : outcome (list json) :=
  match measurements with
  | JList l =>
      if forallb is_dict l then
        if (Z.of_nat (length l) <=? 1) then Ok l
        else if forallb (fun m => is_str (timestamp_of m)) l then
          Ok (sort_by ts_string l)
        else sort_other_keys l
      else Raise AttributeError
  | _ => Raise AttributeError
  end.

Definition unwrap_points (data : json) : json :=
  match data with
  | JList _ => data
  | JDict d =>
      py_or (py_or (py_or (dict_get "meteringPoints" d) (dict_get "data" d))
                   (dict_get "content" d))
            (JList [])
  | _ => JList []
  end.

(** [async_get_metering_points]; [now] is its [datetime.now]. The
    [len(points)] of its last log line raises on a value without a
    length. *)
Definition async_get_metering_points (env : request_env) (now : datetime) : M json :=
  let params := [("startDateTime", _format_dt now);
                 ("endDateTime", _format_dt now)] in
  data ← _async_request env "GET" METERING_POINTS_PATH params;
  let points := unwrap_points data in
  if has_len points then mret points else mthrow TypeError.

(** [async_get_metering_data] *)
Definition async_get_metering_data (env : request_env) (eic : string)
    (start end_ : datetime) (resolution : string) : M (list json) :=
  let params := [("startDateTime", _format_dt start);
                 ("endDateTime", _format_dt end_);
                 ("resolution", resolution);
                 ("meteringPointEics", eic)] in
  data ← _async_request env "GET" METERING_DATA_PATH params;
  let measurements := _extract_measurements data eic in
  lift_outcome (sort_measurements measurements).

End Calls.

End Endpoints.

(** ** coordinator.py *)

Module Coordinator.
Import Py Const Api Endpoints.

Definition DEFAULT_DATA_WINDOW_HOURS : Z := 2.
Definition timedelta_hours (h : Z) : Z := h * 3600000000.

(** What [_async_update_data] does: it returns the latest point, raises
    [UpdateFailed] for an exception of the client, or lets another
    exception out. *)
Inductive update_outcome :=
| Latest (point : json)
| UpdateFailed (cause : exn)
| Escapes (e : exn).

Section Update.
Context {builtins : Builtins}.
Variable strftime : datetime -> string.
Variable sort_other_keys : list json -> outcome (list json).

(** [_async_update_data]; [now] is its [datetime.now]. The log line
    after the [try] takes [latest.keys()] of a true [latest]. *)
Definition _async_update_data (env : request_env) (eic resolution : string)
    (now : datetime) (client : EleringEstfeedApiClient)
  : update_outcome * EleringEstfeedApiClient * list event :=
  let start := now - timedelta_hours DEFAULT_DATA_WINDOW_HOURS in
  match async_get_metering_data strftime sort_other_keys env eic start now
          resolution client with
  | (Raise e, client', tr) => (UpdateFailed e, client', tr)
  | (Ok measurements, client', tr) =>
      let latest :=
        match measurements with
        | [] => JDict []
        | _ :: _ => List.last measurements JNull
        end in
      if truthy latest && negb (is_dict latest) then
        (Escapes AttributeError, client', tr)
      else (Latest latest, client', tr)
  end.

End Update.

End Coordinator.

(** ** config_flow.py *)

Module ConfigFlow.
Import Py Const Api Endpoints.

(** [s.rstrip("/")], as [EleringEstfeedApiClient.__init__] applies it to
    [api_host]. *)
Fixpoint rstrip_slash (s : string) : string :=
  match s with
  | EmptyString => EmptyString
  | String c s' =>
      match rstrip_slash s' with
      | EmptyString => if String.eqb (String c EmptyString) "/" then EmptyString
          else String c EmptyString
      | r => String c r
      end
  end.

(** [n] slashes. *)
Fixpoint slashes (n : nat) : string :=
  match n with
  | O => EmptyString
  | S n' => String.append "/" (slashes n')
  end.

(** [EleringEstfeedApiClient(api_host=..., client_id=..., client_secret=...)] *)
Definition new_client (api_host client_id client_secret : string)
  : EleringEstfeedApiClient :=
  Api.init (rstrip_slash api_host) client_id client_secret.

(** The error key of the [except] clauses of both helpers, in their
    order: [EleringAuthError], [EleringConnectionError],
    [EleringEstfeedError], [Exception]. *)
Definition error_key (e : exn) : string :=
  match e with
  | EleringAuthError => "invalid_auth"
  | EleringConnectionError => "cannot_connect"
  | EleringEstfeedError => "unknown"
  | _ => "unknown"
  end.

(** What [for point in self._metering_points] visits: the entries of a
    list, the keys of a dict, the characters of a string. *)
Definition iter_points (points : json) : list json :=
  match points with
  | JList l => l
  | JDict d => map (fun kv => JStr kv.1) d
  | JStr s => map (fun c => JStr (String c EmptyString)) (list_ascii_of_string s)
  | _ => []
  end.

(** A key of a dict has a hash: a list and a dict have none. *)
Definition hashable (j : json) : bool :=
  match j with JList _ | JDict _ => false | _ => true end.

(** One round of the loop of [async_step_select_eic] that builds
    [eic_options], up to the key it assigns: [point.get] needs a dict,
    [(point.get("commodityType") or "").upper()] a string, and
    [eic_options[eic] = ...] an [eic] with a hash. The label of the
    option is not described. *)
Definition option_key (point : json) : outcome json :=
  match point with
  | JDict d =>
      let eic := default (JStr "") (dict_lookup "eic" d) in
      let commodity := py_or (dict_get "commodityType" d) (JStr "") in
      if is_str commodity then
        if hashable eic then Ok eic else Raise TypeError
      else Raise AttributeError
  | _ => Raise AttributeError
  end.

Fixpoint option_keys (points : list json) : outcome (list json) :=
  match points with
  | [] => Ok []
  | point :: rest =>
      match option_key point with
      | Ok key =>
          match option_keys rest with
          | Ok keys => Ok (key :: keys)
          | Raise e => Raise e
          end
      | Raise e => Raise e
      end
  end.

(** [async_step_select_eic] without an input, as [async_step_user]
    calls it: the keys given to the options of the form, in the order
    of the loop, or the exception of the loop. *)
Definition async_step_select_eic (metering_points : json) : outcome (list json) :=
  option_keys (iter_points metering_points).

(** The result of [async_step_user] with an input: the form again with
    an error, the form that selects a metering point, or an exception
    that is not caught. *)
Inductive step_result :=
| ShowForm (base_error : string)
| SelectEic (client : EleringEstfeedApiClient) (metering_points : json)
    (eic_options : list json)
| Propagates (e : exn).

Section Flow.
Context {builtins : Builtins}.
Variable strftime : datetime -> string.

Definition _async_validate_credentials (now : PrimFloat.float) (reply : http_reply)
  : M (option string) :=
  try_except
    (async_get_access_token now reply;; mret None)
    (fun e => mret (Some (error_key e))).

(** [_async_fetch_metering_points]: the error key, and the value of
    [self._metering_points] afterwards. *)
Definition _async_fetch_metering_points (env : request_env) (now : datetime)
    (metering_points : json) : M (option string * json) :=
  try_except
    (points ← async_get_metering_points strftime env now;
     mret (if truthy points then None else Some "no_metering_points", points))
    (fun e => mret (Some (error_key e), metering_points)).

(** [async_step_user] with a [user_input]; [validate_now] and
    [validate_reply] are the clock and the token endpoint met by the
    validation, [env] and [now] those met by the fetch of the points. *)
Definition async_step_user (api_host client_id client_secret : string)
    (validate_now : PrimFloat.float) (validate_reply : http_reply)
    (env : request_env) (now : datetime)
  : step_result * list event :=
  let client := new_client api_host client_id client_secret in
  match _async_validate_credentials validate_now validate_reply client with
  | (Ok (Some error), _, tr) => (ShowForm error, tr)
  | (Ok None, client', tr) =>
      match _async_fetch_metering_points env now (JList []) client' with
      | (Ok (Some mp_error, _), _, tr') => (ShowForm mp_error, tr ++ tr')
      | (Ok (None, points), client'', tr') =>
          match async_step_select_eic points with
          | Ok keys => (SelectEic client'' points keys, tr ++ tr')
          | Raise e => (Propagates e, tr ++ tr')
          end
      | (Raise e, _, tr') => (Propagates e, tr ++ tr')
      end
  | (Raise e, _, tr) => (Propagates e, tr)
  end.

End Flow.

End ConfigFlow.

(** ** __init__.py *)

Module Setup.




End Setup.

(** ** More sample data *)

Module Fixtures.
Import Py History Samples.

(** The clocks of [env0] with a store whose write fails. *)
Definition env_save_fails : fetch_env :=
  {| now_start := 20100 * day; now_save := 20100 * day + 7;
     write_error := Some OSError |}.

(** An upstream that answers every window with the one point [p1]. *)
Definition upstream_p1 (w : unit) (eic : string) (s e : datetime)
  : outcome (list Measurement) * unit := (Ok [p1], w).

(** A token granted for thirty seconds. *)
Definition token_short : Api.http_reply :=
  Api.Response 200 ∅ "{...}"
    (Some (JDict [("access_token", JStr "tok-3"); ("expires_in", JInt 30)])).

(** The API refuses the token. *)
Definition env_forbidden : Api.request_env :=
  {| Api.mono_enforce := 20; Api.mono_token := 20;
     Api.token_reply := Api.Fails ClientError;
     Api.api_reply := Api.Response 403 ∅ "Forbidden" None;
     Api.wall_done := 20100 * day; Api.mono_done := 21 |}.

(** Two measurements of the requested EIC, the later one first. *)
Definition env_data : Api.request_env :=
  {| Api.mono_enforce := 10; Api.mono_token := 10;
     Api.token_reply := token_ok;
     Api.api_reply :=
       Api.Response 200 rl_headers "[...]"
         (Some (JList [wrapper "38ZEE-00000000-A"
                         [flat "2025-01-01T01:00:00+0000";
                          flat "2025-01-01T00:00:00+0000"]]));
     Api.wall_done := 20100 * day; Api.mono_done := 11 |}.

Definition metering_point : json :=
  JDict [("eic", JStr "38ZEE-00000000-A"); ("commodityType", JStr "ELECTRICITY")].

Definition env_points : Api.request_env :=
  {| Api.mono_enforce := 10; Api.mono_token := 10;
     Api.token_reply := token_ok;
     Api.api_reply :=
       Api.Response 200 ∅ "{...}"
         (Some (JDict [("meteringPoints", JList [metering_point])]));
     Api.wall_done := 20100 * day; Api.mono_done := 11 |}.

(** A stand-in for [strftime("%Y-%m-%dT%H:%M:%S%z")] on a time in UTC of
    the years 1970 to 9999: the civil date of the day number, then the
    time of day. *)
Definition digit (n : Z) : string :=
  String (Ascii.ascii_of_N (Z.to_N (48 + n mod 10))) EmptyString.

Definition pad2 (n : Z) : string := digit (n / 10) +:+ digit n.

Definition pad4 (n : Z) : string := pad2 (n / 100) +:+ pad2 (n mod 100).

Definition civil_from_days (days : Z) : Z * Z * Z :=
  let z := days + 719468 in
  let era := z / 146097 in
  let doe := z - era * 146097 in
  let yoe := (doe - doe / 1460 + doe / 36524 - doe / 146096) / 365 in
  let doy := doe - (365 * yoe + yoe / 4 - yoe / 100) in
  let mp := (5 * doy + 2) / 153 in
  let d := doy - (153 * mp + 2) / 5 + 1 in
  let m := if mp <? 10 then mp + 3 else mp - 9 in
  let y := yoe + era * 400 in
  (if m <=? 2 then y + 1 else y, m, d).

Definition strftime_utc (t : datetime) : string :=
  let secs := t / 1000000 in
  let rem := secs mod 86400 in
  let '(y, m, d) := civil_from_days (secs / 86400) in
  pad4 y +:+ "-" +:+ pad2 m +:+ "-" +:+ pad2 d +:+ "T" +:+
  pad2 (rem / 3600) +:+ ":" +:+ pad2 (rem mod 3600 / 60) +:+ ":" +:+
  pad2 (rem mod 60) +:+ "+0000".

(** A response whose list of points holds a number. *)
Definition env_points_number : Api.request_env :=
  {| Api.mono_enforce := 10; Api.mono_token := 10;
     Api.token_reply := token_ok;
     Api.api_reply := Api.Response 200 ∅ "[5]" (Some (JList [JInt 5]));
     Api.wall_done := 20100 * day; Api.mono_done := 11 |}.

(** The session gives up waiting for the API. *)
Definition env_timeout : Api.request_env :=
  {| Api.mono_enforce := 10; Api.mono_token := 10;
     Api.token_reply := token_ok;
     Api.api_reply := Api.Fails TimeoutError;
     Api.wall_done := 20100 * day; Api.mono_done := 11 |}.

(** A token whose [expires_in] is beyond the range of a float. *)
Definition token_huge : Api.http_reply :=
  Api.Response 200 ∅ "{...}"
    (Some (JDict [("access_token", JStr "tok-4"); ("expires_in", JInt (10 ^ 400))])).

(** The samples have string timestamps only. *)
Definition no_other_keys (l : list json) : outcome (list json) := Raise TypeError.

End Fixtures.

(** * Properties *)

Import Py.

(** ** The order on timestamp keys *)

Section StringOrder.

Lemma str_compare_refl (s : string) : String.compare s s = Eq.
Proof. by apply String_as_OT.cmp_eq. Qed.

Lemma str_ltb_false_leb (x y : string) :
  String.ltb y x = false <-> String.leb x y = true.
Proof.
  unfold String.ltb, String.leb. rewrite (String.compare_antisym x y).
  destruct (String.compare y x); simpl; split; congruence.
Qed.

Lemma str_ltb_leb (x y : string) :
  String.ltb x y = true -> String.leb x y = true.
Proof.
  unfold String.ltb, String.leb. destruct (String.compare x y); congruence.
Qed.

Lemma str_leb_cases (x y : string) :
  String.leb x y = true <-> x = y \/ String_as_OT.lt x y.
Proof.
  unfold String.leb. split.
  - destruct (String.compare x y) eqn:E; intros H; try discriminate.
    + left. by apply String_as_OT.cmp_eq.
    + right. by apply String_as_OT.cmp_lt.
  - intros [-> | H].
    + by rewrite str_compare_refl.
    + apply String_as_OT.cmp_lt in H. unfold String_as_OT.cmp in H. by rewrite H.
Qed.

Lemma str_leb_trans (x y z : string) :
  String.leb x y = true -> String.leb y z = true -> String.leb x z = true.
Proof.
  rewrite !str_leb_cases. intros [-> | Hxy] [-> | Hyz]; auto.
  right. eapply String_as_OT.lt_trans; eauto.
Qed.

End StringOrder.

(** ** The stable sort by timestamp key *)

Section Sort.
Import History.

Lemma ts_le_trans (x y z : Measurement) : ts_le x y -> ts_le y z -> ts_le x z.
Proof. unfold ts_le. apply str_leb_trans. Qed.

Lemma sort_insert_perm (x : Measurement) (l : list Measurement) :
  sort_insert x l ≡ₚ x :: l.
Proof.
  induction l as [| y l IH]; simpl; [done |].
  destruct (String.ltb (ts_key y) (ts_key x)); [| done].
  rewrite IH. apply Permutation_swap.
Qed.

Lemma sort_by_timestamp_perm (l : list Measurement) : sort_by_timestamp l ≡ₚ l.
Proof.
  induction l as [| x l IH]; simpl; [done |].
  by rewrite sort_insert_perm, IH.
Qed.

Lemma sort_insert_sorted (x : Measurement) (l : list Measurement) :
  sorted_asc l -> sorted_asc (sort_insert x l).
Proof.
  unfold sorted_asc. induction 1 as [| y l Hs IH Hall]; simpl.
  - repeat constructor.
  - destruct (String.ltb (ts_key y) (ts_key x)) eqn:E.
    + constructor; [exact IH |].
      rewrite sort_insert_perm. constructor; [| exact Hall].
      by apply str_ltb_leb.
    + apply str_ltb_false_leb in E.
      constructor; [by constructor |].
      constructor; [exact E |].
      eapply Forall_impl; [exact Hall |].
      intros z Hz. by apply (ts_le_trans x y z).
Qed.

Lemma sort_by_timestamp_sorted (l : list Measurement) :
  sorted_asc (sort_by_timestamp l).
Proof.
  induction l as [| x l IH]; simpl.
  - constructor.
  - by apply sort_insert_sorted.
Qed.

(** A sorted list is a fixed point: the sort moves nothing. *)
Lemma sort_by_timestamp_fixed (l : list Measurement) :
  sorted_asc l -> sort_by_timestamp l = l.
Proof.
  unfold sorted_asc. induction 1 as [| x l Hs IH Hall]; simpl; [done |].
  rewrite IH. destruct l as [| y l']; simpl; [done |].
  apply Forall_cons in Hall as [Hxy _].
  apply str_ltb_false_leb in Hxy. by rewrite Hxy.
Qed.

Lemma sort_by_timestamp_keys (l : list Measurement) :
  list_to_set (map ts_key (sort_by_timestamp l)) =@{gset string}
  list_to_set (map ts_key l).
Proof.
  apply list_to_set_perm_L. apply (fmap_Permutation ts_key).
  apply sort_by_timestamp_perm.
Qed.

Lemma sort_by_timestamp_unique (l : list Measurement) :
  unique_ts l -> unique_ts (sort_by_timestamp l).
Proof.
  unfold unique_ts. intros H.
  eapply NoDup_Permutation_proper; [| exact H].
  apply (fmap_Permutation ts_key). apply sort_by_timestamp_perm.
Qed.

End Sort.

(** ** The merge loop *)

Section Merge.
Import History.

(** Points whose key is empty or already seen leave the three loop
    variables as they are. *)
Lemma merge_loop_seen (new_points ms : list Measurement) (E : gset string) (a : Z) :
  (forall p, p ∈ new_points -> str_truthy (ts_key p) = true -> ts_key p ∈ E) ->
  merge_loop new_points ms E a = (ms, E, a).
Proof.
  revert ms E a. induction new_points as [| p rest IH]; intros ms E a H; simpl; [done |].
  destruct (str_truthy (ts_key p)) eqn:Et; simpl.
  - rewrite bool_decide_eq_false_2.
    + apply IH. intros q Hq. apply H. by right.
    + intros Hn. apply Hn. apply H; [by left | done].
  - apply IH. intros q Hq. apply H. by right.
Qed.

Lemma merge_loop_spec (new_points : list Measurement) :
  forall (ms : list Measurement) (E : gset string) (a : Z) ms' E' a',
  merge_loop new_points ms E a = (ms', E', a') ->
  E = list_to_set (map ts_key ms) ->
  E' = list_to_set (map ts_key ms') /\
  E ⊆ E' /\
  (forall p, p ∈ new_points -> str_truthy (ts_key p) = true -> ts_key p ∈ E') /\
  (unique_ts ms -> unique_ts ms').
Proof.
  induction new_points as [| p rest IH]; intros ms E a ms' E' a' Hrun HE; simpl in Hrun.
  - inversion Hrun; subst. repeat split; [done | | done].
    intros q Hq. by apply elem_of_nil in Hq.
  - destruct (str_truthy (ts_key p)) eqn:Et; simpl in Hrun.
    + destruct (bool_decide (ts_key p ∉ E)) eqn:Ed.
      * apply bool_decide_eq_true_1 in Ed.
        apply IH in Hrun as (HE' & Hsub & Hin & Hnd).
        2:{ rewrite map_app, list_to_set_app_L. simpl. subst E. set_solver. }
        repeat split; [exact HE' | set_solver | |].
        -- intros q Hq Hq'. apply elem_of_cons in Hq as [-> | Hq]; [set_solver | by apply Hin].
        -- intros Hu. apply Hnd. unfold unique_ts in *.
           rewrite map_app. simpl. apply NoDup_app. repeat split; [exact Hu | |].
           ++ intros k Hk Hk'. apply list_elem_of_singleton in Hk'. subst k.
              apply Ed. subst E. by apply elem_of_list_to_set.
           ++ apply NoDup_singleton.
      * apply bool_decide_eq_false_1 in Ed.
        assert (Hp : ts_key p ∈ E) by (destruct (decide (ts_key p ∈ E)); [done | by exfalso; apply Ed]).
        apply IH in Hrun as (HE' & Hsub & Hin & Hnd); [| exact HE].
        repeat split; [exact HE' | exact Hsub | | exact Hnd].
        intros q Hq Hq'. apply elem_of_cons in Hq as [-> | Hq]; [set_solver | by apply Hin].
    + apply IH in Hrun as (HE' & Hsub & Hin & Hnd); [| exact HE].
      repeat split; [exact HE' | exact Hsub | | exact Hnd].
      intros q Hq Hq'. apply elem_of_cons in Hq as [-> | Hq]; [congruence | by apply Hin].
Qed.

Lemma merge_points_sorted (cache new_points : list Measurement) :
  sorted_asc (fst (merge_points cache new_points)).
Proof.
  unfold merge_points.
  destruct (merge_loop new_points cache _ 0) as [[ms E] a]. simpl.
  apply sort_by_timestamp_sorted.
Qed.

Lemma merge_points_unique (cache new_points : list Measurement) :
  unique_ts cache -> unique_ts (fst (merge_points cache new_points)).
Proof.
  intros Hu. unfold merge_points.
  destruct (merge_loop new_points cache _ 0) as [[ms E] a] eqn:Hrun. simpl.
  apply merge_loop_spec in Hrun as (_ & _ & _ & Hnd); [| done].
  apply sort_by_timestamp_unique. by apply Hnd.
Qed.

Lemma merge_points_twice (cache new_points : list Measurement) :
  merge_points (fst (merge_points cache new_points)) new_points =
  (fst (merge_points cache new_points), 0).
Proof.
  unfold merge_points.
  destruct (merge_loop new_points cache _ 0) as [[ms E] a] eqn:Hrun. simpl.
  apply merge_loop_spec in Hrun as (HE & _ & Hin & _); [| done].
  rewrite sort_by_timestamp_keys, <- HE.
  rewrite merge_loop_seen by exact Hin.
  f_equal. apply sort_by_timestamp_fixed, sort_by_timestamp_sorted.
Qed.

End Merge.

(** ** The chunk loop *)

Section Chunks.
Import History.

Lemma chunk_end_of_gt (chunk_start end_ : datetime) :
  chunk_start < end_ -> chunk_start < chunk_end_of chunk_start end_ <= end_.
Proof.
  unfold chunk_end_of, timedelta_days, Const.API_MAX_WINDOW_DAYS. lia.
Qed.

Lemma chunk_end_of_span (chunk_start end_ : datetime) :
  chunk_end_of chunk_start end_ - chunk_start
  <= timedelta_days Const.API_MAX_WINDOW_DAYS.
Proof. unfold chunk_end_of. lia. Qed.

Lemma chunk_windows_tiles (end_ chunk_start : datetime) :
  chunk_start <= end_ -> tiles chunk_start end_ (chunk_windows end_ chunk_start).
Proof.
  funelim (chunk_windows end_ chunk_start); intros Hle; simpl.
  - pose proof (chunk_end_of_gt chunk_start end_ l) as [H1 H2].
    pose proof (chunk_end_of_span chunk_start end_) as H3.
    repeat split; [exact H1 | exact H3 |]. apply H. exact H2.
  - lia.
Qed.

Lemma chunk_windows_length (end_ chunk_start : datetime) :
  chunk_start <= end_ ->
  Z.of_nat (length (chunk_windows end_ chunk_start)) =
  (end_ - chunk_start + timedelta_days Const.API_MAX_WINDOW_DAYS - 1)
  / timedelta_days Const.API_MAX_WINDOW_DAYS.
Proof.
  funelim (chunk_windows end_ chunk_start); intros Hle.
  - pose proof (chunk_end_of_gt chunk_start end_ l) as [H1 H2].
    simpl length. rewrite Nat2Z.inj_succ, H by exact H2.
    unfold chunk_end_of, timedelta_days, Const.API_MAX_WINDOW_DAYS in *.
    destruct (Z.min_spec (chunk_start + 31 * 86400000000) end_) as [[Hlt ->] | [Hge ->]].
    + replace (end_ - chunk_start + 31 * 86400000000 - 1)
        with ((end_ - (chunk_start + 31 * 86400000000) + 31 * 86400000000 - 1)
              + 1 * (31 * 86400000000)) by lia.
      rewrite Z.div_add by lia. lia.
    + replace (end_ - end_ + 31 * 86400000000 - 1) with (31 * 86400000000 - 1) by lia.
      rewrite (Z.div_small (31 * 86400000000 - 1)) by lia.
      apply (Z.div_unique _ _ _ (end_ - chunk_start - 1)); lia.
  - simpl. symmetry. apply Z.div_small.
    unfold timedelta_days, Const.API_MAX_WINDOW_DAYS. lia.
Qed.

Lemma chunk_windows_days (now days : Z) :
  0 <= days ->
  Z.of_nat (length (chunk_windows now (now - timedelta_days days))) = (days + 30) / 31.
Proof.
  intros Hd. rewrite chunk_windows_length by (unfold timedelta_days; lia).
  unfold timedelta_days, Const.API_MAX_WINDOW_DAYS.
  pose proof (Z.div_mod (days + 30) 31 ltac:(lia)) as Hdm.
  pose proof (Z.mod_pos_bound (days + 30) 31 ltac:(lia)) as Hr.
  symmetry.
  apply (Z.div_unique _ _ _ (((days + 30) mod 31 + 1) * 86400000000 - 1)); lia.
Qed.

Lemma chunk_windows_step (end_ chunk_start : datetime) :
  chunk_start < end_ ->
  chunk_windows end_ chunk_start =
  (chunk_start, chunk_end_of chunk_start end_)
  :: chunk_windows end_ (chunk_end_of chunk_start end_).
Proof.
  intros Hlt. rewrite chunk_windows_equation_1.
  destruct (decide (chunk_start < end_)) as [? | Hn]; [reflexivity | by destruct Hn].
Qed.

Lemma chunk_windows_done (end_ chunk_start : datetime) :
  ~ chunk_start < end_ -> chunk_windows end_ chunk_start = [].
Proof.
  intros Hge. rewrite chunk_windows_equation_1.
  destruct (decide (chunk_start < end_)) as [Hlt | ?]; [by destruct Hge | reflexivity].
Qed.

Context {W : Type}.
Variable fetch : W -> string -> datetime -> datetime -> outcome (list Measurement) * W.

(** The loop is its body folded over the windows: no outcome of a fetch
    changes which windows come next. *)
Lemma fetch_loop_fold (eic : string) (end_ chunk_start : datetime) (st : loop_state) :
  fetch_loop fetch eic end_ chunk_start st =
  fold_left (fetch_chunk fetch eic) (chunk_windows end_ chunk_start) st.
Proof.
  revert st. funelim (chunk_windows end_ chunk_start); intros st.
  - rewrite fetch_loop_equation_1. rewrite Heq. simpl. apply H.
  - rewrite fetch_loop_equation_1. rewrite Heq. reflexivity.
Qed.

Lemma fold_fetch_chunk_requests (eic : string) (ws : list window) (st : loop_state) :
  ls_requests (fold_left (fetch_chunk fetch eic) ws st) = ls_requests st ++ ws.
Proof.
  revert st. induction ws as [| win ws IH]; intros st; simpl.
  - by rewrite app_nil_r.
  - rewrite IH. unfold fetch_chunk.
    destruct (fetch (ls_world st) eic win.1 win.2) as [[chunk | e] w']; simpl;
      by rewrite <- app_assoc.
Qed.

Lemma fold_fetch_chunk_all_new (eic : string) (ws : list window) (st : loop_state) :
  ls_all_new (fold_left (fetch_chunk fetch eic) ws st) =
  ls_all_new st ++ fetched_points (chunk_outcomes fetch eic ws (ls_world st)).
Proof.
  revert st. induction ws as [| win ws IH]; intros st; simpl.
  - by rewrite app_nil_r.
  - rewrite IH. unfold fetch_chunk.
    destruct (fetch (ls_world st) eic win.1 win.2) as [[chunk | e] w']; simpl;
      [by rewrite <- app_assoc | done].
Qed.

Lemma chunk_outcomes_length (eic : string) (ws : list window) (w : W) :
  length (chunk_outcomes fetch eic ws w) = length ws.
Proof.
  revert w. induction ws as [| win ws IH]; intros w; simpl; [done |].
  destruct (fetch w eic win.1 win.2) as [o w']. simpl. by rewrite IH.
Qed.

End Chunks.

(** ** The history store *)

Section HistoryClaims.
Import History Samples.

Lemma windows_of_70_days :
  chunk_windows (20100 * day) (20100 * day - timedelta_days 70) =
  [(20030 * day, 20061 * day); (20061 * day, 20092 * day); (20092 * day, 20100 * day)].
Proof.
  rewrite chunk_windows_step by (vm_compute; reflexivity).
  rewrite chunk_windows_step by (vm_compute; reflexivity).
  rewrite chunk_windows_step by (vm_compute; reflexivity).
  rewrite chunk_windows_done by (vm_compute; discriminate).
  vm_compute. reflexivity.
Qed.

Lemma windows_of_1_day :
  chunk_windows (20100 * day) (20100 * day - timedelta_days 1) =
  [(20099 * day, 20100 * day)].
Proof.
  rewrite chunk_windows_step by (vm_compute; reflexivity).
  rewrite chunk_windows_done by (vm_compute; discriminate).
  vm_compute. reflexivity.
Qed.

Section Upstream.
Context {W : Type}.
Variable fetch : W -> string -> datetime -> datetime -> outcome (list Measurement) * W.

(** The requests and the collected points of a call, without the loop. *)
Lemma async_fetch_history_loop (self : EleringHistoryStore) (days : Z)
    (env : fetch_env) (w : W) (persisted : option StoredDoc) :
  let r := async_fetch_history fetch self days env w persisted in
  let ws := chunk_windows (now_start env) (now_start env - timedelta_days days) in
  fr_requests r = ws /\
  fr_all_new r = fetched_points (chunk_outcomes fetch (_eic self) ws w).
Proof.
  unfold async_fetch_history. rewrite fetch_loop_fold.
  set (ws := chunk_windows _ _).
  pose proof (fold_fetch_chunk_requests fetch (_eic self) ws
    {| ls_world := w; ls_all_new := []; ls_requests := [] |}) as Hr.
  pose proof (fold_fetch_chunk_all_new fetch (_eic self) ws
    {| ls_world := w; ls_all_new := []; ls_requests := [] |}) as Ha.
  simpl in Hr, Ha.
  destruct (ls_all_new (fold_left _ ws _)) as [| p l] eqn:E; simpl.
  - by rewrite Hr, <- Ha.
  - destruct (_async_save _ _ _) as [o p']. simpl. by rewrite Hr, <- Ha.
Qed.

(** [Store.async_save] is called exactly when some point was fetched. *)
Lemma async_fetch_history_saves (self : EleringHistoryStore) (days : Z)
    (env : fetch_env) (w : W) (persisted : option StoredDoc) :
  let r := async_fetch_history fetch self days env w persisted in
  (fr_all_new r = [] /\ fr_saves r = [] /\ fr_outcome r = Ok tt /\
   fr_self r = self /\ fr_persisted r = persisted) \/
  (fr_all_new r <> [] /\
   fr_self r = _merge self (fr_all_new r) /\
   fr_saves r = [save_doc (fr_self r) (now_save env)] /\
   (fr_outcome r, fr_persisted r) = _async_save (fr_self r) env persisted).
Proof.
  unfold async_fetch_history.
  destruct (ls_all_new (fetch_loop _ _ _ _ _)) as [| p l] eqn:E; simpl.
  - left. done.
  - right. destruct (_async_save _ _ _) as [o p'] eqn:Es. simpl. done.
Qed.

End Upstream.

(** One day of history against the upstream that answers [p0], from the
    cache that holds [p0] already. *)
Lemma fetch_p0_again :
  async_fetch_history upstream_p0 store0 1 env0 tt
    (Some (save_doc store0 (20000 * day))) =
  {| fr_outcome := Ok tt; fr_self := store0; fr_world := tt;
     fr_persisted := Some (save_doc store0 (20100 * day + 7));
     fr_all_new := [p0];
     fr_requests := [(20099 * day, 20100 * day)];
     fr_saves := [save_doc store0 (20100 * day + 7)] |}.
Proof.
  unfold async_fetch_history. rewrite fetch_loop_fold.
  change (now_start env0) with (20100 * day). rewrite windows_of_1_day.
  vm_compute. reflexivity.
Qed.

(** C2, as the spec states it, fails: with the one cached point fetched
    again the merge adds nothing, and yet the store is written and the
    persisted document changes (its [last_fetch] is the new time). *)
Lemma C2_saved_without_new_points :
  let persisted := Some (save_doc store0 (20000 * day)) in
  let r := async_fetch_history upstream_p0 store0 1 env0 tt persisted in
  merge_added store0 (fr_all_new r) = 0 /\
  _measurements (fr_self r) = _measurements store0 /\
  fr_saves r <> [] /\
  fr_persisted r <> persisted.
Proof.
  cbv zeta. rewrite fetch_p0_again. simpl. split; [| split; [| split]].
  - vm_compute. reflexivity.
  - reflexivity.
  - discriminate.
  - vm_compute. discriminate.
Qed.

(** C2 (amended): [Store.async_save] is called if and only if at least
    one point was fetched, whether or not the merge adds any of them to
    the cache. It is then handed the merged cache, and a write that does
    not raise replaces the persisted document; when no point was fetched
    the cache and the persisted document are left as they were. A merge
    that adds a point is always followed by the save. *)
Theorem C2_saved_iff_points_fetched {W : Type}
    (fetch : W -> string -> datetime -> datetime -> outcome (list Measurement) * W)
    (self : EleringHistoryStore) (days : Z) (env : fetch_env) (w : W)
    (persisted : option StoredDoc) :
  let r := async_fetch_history fetch self days env w persisted in
  (fr_saves r <> [] <-> fr_all_new r <> []) /\
  (fr_all_new r = [] -> fr_self r = self /\ fr_persisted r = persisted) /\
  (fr_all_new r <> [] ->
     fr_saves r = [save_doc (_merge self (fr_all_new r)) (now_save env)] /\
     (write_error env = None ->
      fr_persisted r = Some (save_doc (_merge self (fr_all_new r)) (now_save env)))) /\
  (0 < merge_added self (fr_all_new r) -> fr_saves r <> []).
Proof.
  cbv zeta.
  destruct (async_fetch_history_saves fetch self days env w persisted)
    as [(Ha & Hs & Ho & Hself & Hp) | (Ha & Hself & Hs & Hw)].
  - rewrite Ha, Hs.
    repeat split; try done; unfold merge_added, merge_points; simpl; lia.
  - rewrite Hs, Hself. repeat split; try done.
    intros He. unfold _async_save in Hw. rewrite He, Hself in Hw.
    simpl in Hw. congruence.
Qed.

(** [_merge] keeps the invariant of the cache and leaves the cache sorted
    from any state; [async_load] installs the list of the document, so
    the cache it leaves has the invariant when that list has it. *)
Lemma cache_inv_kept (self : EleringHistoryStore)
    (new_points : list Measurement) (data : option StoredDoc) :
  cache_inv (_measurements self) ->
  match data with
  | Some d => cache_inv (default [] (doc_measurements d))
  | None => True
  end ->
  cache_inv (_measurements (_merge self new_points)) /\
  cache_inv (_measurements (async_load self data)).
Proof.
  intros [Hu Hs] Hdoc. split.
  - split; simpl.
    + by apply merge_points_unique.
    + apply merge_points_sorted.
  - unfold async_load. destruct data as [d |]; [| done].
    by destruct (doc_truthy d).
Qed.

(** Every step of the life of a store keeps the invariant of the cache
    and of the persisted document. *)
Lemma run_op_keeps_inv {W : Type}
    (fetch : W -> string -> datetime -> datetime -> outcome (list Measurement) * W)
    (st : store_state) (op : store_op) :
  store_inv st -> store_inv (run_op fetch st op).
Proof.
  destruct st as [self persisted]. intros [Hc Hd]. simpl in Hc, Hd.
  destruct op as [| | new_points | env | days env w]; unfold store_inv; simpl.
  - split; [| exact Hd]. split; [apply NoDup_nil_2 | constructor].
  - split; [| exact Hd]. exact (proj2 (cache_inv_kept self [] persisted Hc Hd)).
  - split; [| exact Hd]. exact (proj1 (cache_inv_kept self new_points None Hc I)).
  - split; [exact Hc |]. unfold _async_save, store_async_save.
    by destruct (write_error env).
  - destruct (async_fetch_history_saves fetch self days env w persisted)
      as [(_ & _ & _ & -> & ->) | (_ & Hself & _ & Hw)].
    + by split.
    + rewrite Hself.
      assert (Hm : cache_inv
                     (_measurements
                        (_merge self
                           (fr_all_new
                              (async_fetch_history fetch self days env w persisted)))))
        by exact (proj1 (cache_inv_kept self _ None Hc I)).
      split; [exact Hm |].
      rewrite Hself in Hw. unfold _async_save, store_async_save in Hw.
      destruct (write_error env); injection Hw as _ ->; [exact Hd | exact Hm].
Qed.

Lemma run_ops_keeps_inv {W : Type}
    (fetch : W -> string -> datetime -> datetime -> outcome (list Measurement) * W)
    (ops : list store_op) (st : store_state) :
  store_inv st -> store_inv (run_ops fetch ops st).
Proof.
  revert st. induction ops as [| op ops IH]; intros st Hst; [exact Hst |].
  apply IH. by apply run_op_keeps_inv.
Qed.

(** C3: from a new store with nothing persisted, whatever the store then
    does ([__init__] of a new object, [async_load], [_merge],
    [_async_save], [async_fetch_history], in any number and order, with
    any batches, upstream answers and failures of the write), the cache
    has no timestamp key twice and is ascending by that key; so it is
    after one more merge of any batch and after one more load. *)
Theorem C3_cache_invariant {W : Type}
    (fetch : W -> string -> datetime -> datetime -> outcome (list Measurement) * W)
    (eic : string) (ops : list store_op) :
  let st := run_ops fetch ops (new_store eic) in
  unique_ts (_measurements st.1) /\
  sorted_asc (_measurements st.1) /\
  (forall new_points,
     unique_ts (_measurements (_merge st.1 new_points)) /\
     sorted_asc (_measurements (_merge st.1 new_points))) /\
  unique_ts (_measurements (async_load st.1 st.2)) /\
  sorted_asc (_measurements (async_load st.1 st.2)).
Proof.
  cbv zeta.
  assert (Hinv : store_inv (run_ops fetch ops (new_store eic))).
  { apply run_ops_keeps_inv. split; simpl; [| done].
    split; [apply NoDup_nil_2 | constructor]. }
  destruct Hinv as [[Hu Hs] Hd].
  split; [exact Hu |]. split; [exact Hs |]. split.
  - intros new_points.
    exact (proj1 (cache_inv_kept _ new_points None (conj Hu Hs) I)).
  - exact (proj2 (cache_inv_kept _ [] _ (conj Hu Hs) Hd)).
Qed.

(** A life of a store: it loads nothing, fetches one day and saves,
    and a new object loads what was saved. *)
Example store_life_sample :
  run_ops Fixtures.upstream_p1 [OpLoad; OpFetch 1 env0 tt; OpRestart; OpLoad]
    (new_store "38ZEE-00000000-A") =
  ({| _eic := "38ZEE-00000000-A"; _measurements := [p1];
      _last_fetch := Some (20100 * day + 7) |},
   Some (save_doc {| _eic := "38ZEE-00000000-A"; _measurements := [p1];
                     _last_fetch := None |} (20100 * day + 7))).
Proof.
  unfold run_ops, new_store. cbn [fold_left run_op fst snd async_load].
  unfold async_fetch_history. rewrite fetch_loop_fold.
  change (now_start env0) with (20100 * day). rewrite windows_of_1_day.
  vm_compute. reflexivity.
Qed.

Example merge_sorts_the_cache :
  _measurements (_merge store0 [p2; p1; p0]) = [p0; p1; p2].
Proof. vm_compute. reflexivity. Qed.

(** C4: merging a batch a second time changes nothing: the cache is the
    one the first merge left, and no point is added. *)
Theorem C4_merge_idempotent (self : EleringHistoryStore)
    (new_points : list Measurement) :
  _merge (_merge self new_points) new_points = _merge self new_points /\
  merge_added (_merge self new_points) new_points = 0.
Proof.
  unfold _merge, merge_added. simpl.
  rewrite merge_points_twice. simpl. done.
Qed.

(** C5: for [days >= 1] the windows requested run from [now - days] to
    [now] one after the other, with no gap and no overlap, each of at
    most 31 days; there are [ceil(days / 31)] of them, one request each,
    and so 2 for 40 days. *)
Theorem C5_chunks_tile_the_window {W : Type}
    (fetch : W -> string -> datetime -> datetime -> outcome (list Measurement) * W)
    (self : EleringHistoryStore) (days : Z) (env : fetch_env) (w : W)
    (persisted : option StoredDoc) :
  1 <= days ->
  let r := async_fetch_history fetch self days env w persisted in
  tiles (now_start env - timedelta_days days) (now_start env) (fr_requests r) /\
  Z.of_nat (length (fr_requests r)) = (days + 30) / 31 /\
  (days = 40 -> length (fr_requests r) = 2%nat).
Proof.
  intros Hd. cbv zeta.
  destruct (async_fetch_history_loop fetch self days env w persisted) as [Hr _].
  rewrite Hr. split; [| split].
  - apply chunk_windows_tiles. unfold timedelta_days. lia.
  - apply chunk_windows_days. lia.
  - intros ->. apply Nat2Z.inj. rewrite chunk_windows_days by lia. reflexivity.
Qed.

Lemma C5_chunks_tile_the_window_witness :
  let r := async_fetch_history upstream_p0 store0 40 env0 tt None in
  tiles (now_start env0 - timedelta_days 40) (now_start env0) (fr_requests r) /\
  Z.of_nat (length (fr_requests r)) = (40 + 30) / 31 /\
  (40 = 40 -> length (fr_requests r) = 2%nat).
Proof.
  apply (C5_chunks_tile_the_window upstream_p0 store0 40 env0 tt None). lia.
Defined.

(** C6: every window is requested, whatever the earlier fetches did; the
    points collected are those of the fetches that did not fail, and
    they are merged; the call raises only what the write to the store
    raises. *)
Theorem C6_chunk_failures_tolerated {W : Type}
    (fetch : W -> string -> datetime -> datetime -> outcome (list Measurement) * W)
    (self : EleringHistoryStore) (days : Z) (env : fetch_env) (w : W)
    (persisted : option StoredDoc) :
  let r := async_fetch_history fetch self days env w persisted in
  let ws := chunk_windows (now_start env) (now_start env - timedelta_days days) in
  fr_requests r = ws /\
  length (chunk_outcomes fetch (_eic self) ws w) = length ws /\
  fr_all_new r = fetched_points (chunk_outcomes fetch (_eic self) ws w) /\
  (fr_all_new r <> [] -> fr_self r = _merge self (fr_all_new r)) /\
  (forall e, fr_outcome r = Raise e ->
             write_error env = Some e /\ fr_saves r <> []).
Proof.
  cbv zeta.
  destruct (async_fetch_history_loop fetch self days env w persisted) as [Hr Ha].
  split; [exact Hr |]. split; [apply chunk_outcomes_length |].
  split; [exact Ha |].
  destruct (async_fetch_history_saves fetch self days env w persisted)
    as [(Hn & Hs & Ho & Hself & Hp) | (Hn & Hself & Hs & Hw)].
  - split; [done |]. intros e He. congruence.
  - split; [done |]. intros e He. rewrite Hs. split; [| done].
    rewrite He in Hw. unfold _async_save, store_async_save in Hw.
    destruct (write_error env); congruence.
Qed.

(** Seventy days against an upstream that fails the second of the three
    requests: the third is still made, and the points of the first and
    the third are merged and saved. *)
Example flaky_upstream_70_days :
  let r := async_fetch_history upstream_flaky store0 70 env0 0%nat None in
  fr_outcome r = Ok tt /\
  fr_requests r =
    [(20030 * day, 20061 * day); (20061 * day, 20092 * day);
     (20092 * day, 20100 * day)] /\
  fr_world r = 3%nat /\
  fr_all_new r = [p1; p2] /\
  _measurements (fr_self r) = [p0; p1; p2] /\
  fr_persisted r = Some (save_doc (fr_self r) (now_save env0)).
Proof.
  cbv zeta. unfold async_fetch_history. rewrite fetch_loop_fold.
  change (now_start env0) with (20100 * day). rewrite windows_of_70_days.
  vm_compute. repeat split; reflexivity.
Qed.

Lemma C2_saved_iff_points_fetched_witness :
  let r := async_fetch_history upstream_p0 store0 1 env0 tt
             (Some (save_doc store0 (20000 * day))) in
  fr_saves r = [save_doc (_merge store0 (fr_all_new r)) (now_save env0)].
Proof.
  cbv zeta.
  destruct (C2_saved_iff_points_fetched upstream_p0 store0 1 env0 tt
              (Some (save_doc store0 (20000 * day)))) as (_ & _ & Hsave & _).
  apply Hsave. rewrite fetch_p0_again. discriminate.
Defined.

Lemma C6_chunk_failures_tolerated_witness :
  let r := async_fetch_history upstream_flaky store0 70 env0 0%nat None in
  fr_self r = _merge store0 (fr_all_new r).
Proof.
  cbv zeta.
  destruct (C6_chunk_failures_tolerated upstream_flaky store0 70 env0 0%nat None)
    as (_ & _ & _ & Hmerged & _).
  apply Hmerged.
  pose proof flaky_upstream_70_days as Hx. cbv zeta in Hx.
  destruct Hx as (_ & _ & _ & Ha & _). rewrite Ha. discriminate.
Defined.

End HistoryClaims.

(** ** The API client *)

Section ClientClaims.
Import Const Api Samples.
Context {builtins : Builtins}.

Ltac unfold_m :=
  unfold mbind, mret, mthrow, M_bind, M_ret, M_throw, get_self, modify, emit,
    try_except, lift_outcome, reraise_client_error in *.

Ltac m_simpl :=
  cbn -[Z.eqb Z.add PrimFloat.ltb PrimFloat.add PrimFloat.sub float_add_int
        float_sub_int float_of_int int_overflows truthy dict_get dict_lookup
        py_int status_in_401_403 captured_headers TOKEN_EXPIRY_MARGIN
        RATE_LIMIT_SECONDS].

Ltac m_step :=
  match goal with
  | |- context [match ?x with _ => _ end] =>
      lazymatch x with
      | context [match _ with _ => _ end] => fail
      | _ => destruct x eqn:?
      end
  end.

Ltac m_cases := repeat (m_step; m_simpl; try done).

(** The two constants are in the range of a float. *)
Lemma sub_margin (x : PrimFloat.float) :
  float_sub_int x TOKEN_EXPIRY_MARGIN = Ok (x - 30)%float.
Proof. reflexivity. Qed.

Lemma add_rate_limit (x : PrimFloat.float) :
  float_add_int x RATE_LIMIT_SECONDS = Ok (x + 5)%float.
Proof. reflexivity. Qed.

(** What [_async_enforce_rate_limit] does, by the two cases of its test. *)
Lemma enforce_run (now : PrimFloat.float) (self : EleringEstfeedApiClient) :
  _async_enforce_rate_limit now self =
  if (now <? _next_allowed_mono self)%float then
    (Ok tt, set_blocked_count (_blocked_count self + 1) self,
     [Sleep (_next_allowed_mono self - now)%float])
  else (Ok tt, self, []).
Proof.
  unfold _async_enforce_rate_limit. unfold_m. simpl.
  destruct (now <? _next_allowed_mono self)%float; reflexivity.
Qed.

(** What [async_get_access_token] does with a token that is cached and
    not yet due. *)
Lemma token_cached (now : PrimFloat.float) (reply : http_reply)
    (self : EleringEstfeedApiClient) (tok : json) :
  _access_token self = Some tok ->
  (now <? _token_expiry self)%float = true ->
  async_get_access_token now reply self = (Ok tok, self, []).
Proof.
  intros Ht Hlt. unfold async_get_access_token. unfold_m. m_simpl.
  by rewrite Ht, Hlt.
Qed.

(** What it does otherwise, by the reply of the token endpoint. *)
Lemma token_exchange (now : PrimFloat.float) (reply : http_reply)
    (self : EleringEstfeedApiClient) :
  _access_token self = None \/ (now <? _token_expiry self)%float = false ->
  async_get_access_token now reply self =
  let post := [TokenPost (_client_id self) (_client_secret self)] in
  match reply with
  | Fails e =>
      (Raise (match e with ClientError => EleringConnectionError | _ => e end),
       self, post)
  | Response status _ _ parsed =>
      if status_in_401_403 status then (Raise EleringAuthError, self, post)
      else if negb (status =? 200) then (Raise EleringEstfeedError, self, post)
      else
        match parsed with
        | None => (Raise ValueError, self, post)
        | Some (JDict d) =>
            let tok := dict_get "access_token" d in
            if truthy tok then
              match py_int (default (JInt 300) (dict_lookup "expires_in" d)) with
              | Raise e => (Raise e, self, post)
              | Ok n =>
                  if int_overflows n then
                    (Raise OverflowError, set_token (Some tok) self, post)
                  else
                    (Ok tok,
                     set_token_expiry (now + float_of_int n - 30)%float
                       (set_token (Some tok) self),
                     post)
              end
            else (Raise EleringAuthError, self, post)
        | Some _ => (Raise AttributeError, self, post)
        end
  end.
Proof.
  intros Hc. cbv zeta. unfold async_get_access_token. unfold_m. m_simpl.
  assert (Hsub : forall x, float_sub_int x TOKEN_EXPIRY_MARGIN = Ok (x - 30)%float)
    by apply sub_margin.
  destruct (_access_token self) as [tok0 |] eqn:Et;
    [destruct (now <? _token_expiry self)%float eqn:El;
       [destruct Hc; congruence |] |].
  all: destruct reply as [e | status hdrs body parsed]; m_simpl;
    [by destruct e |].
  all: destruct (status_in_401_403 status); m_simpl; [done |].
  all: destruct (negb (status =? 200)); m_simpl; [done |].
  all: destruct parsed as [[| | | | | | d] |]; m_simpl; try done.
  all: destruct (truthy (dict_get "access_token" d)); m_simpl; [| done].
  all: destruct (py_int _) as [n | e]; m_simpl; [| done].
  all: unfold float_add_int; destruct (int_overflows n); m_simpl; [done |].
  all: by rewrite Hsub.
Qed.

(** The fields [async_get_access_token] never writes, and its trace. *)
Lemma token_frame (now : PrimFloat.float) (reply : http_reply)
    (self : EleringEstfeedApiClient) :
  let '(r, self', tr) := async_get_access_token now reply self in
  _api_host self' = _api_host self /\
  _next_allowed_mono self' = _next_allowed_mono self /\
  _last_request_time self' = _last_request_time self /\
  _blocked_count self' = _blocked_count self /\
  _rate_limit_headers self' = _rate_limit_headers self /\
  waits tr = 0 /\ request_issued tr = false.
Proof.
  destruct (_access_token self) as [tok0 |] eqn:Et;
    [destruct (now <? _token_expiry self)%float eqn:El |].
  - by rewrite (token_cached now reply self tok0).
  - rewrite token_exchange by (by right). cbv zeta.
    destruct reply as [e | status hdrs body parsed]; simpl; [done |].
    destruct (status_in_401_403 status); [done |].
    destruct (negb (status =? 200)); [done |].
    destruct parsed as [[| | | | | | d] |]; try done.
    destruct (truthy _); [| done]. destruct (py_int _); [| done].
    by destruct (int_overflows _).
  - rewrite token_exchange by (by left). cbv zeta.
    destruct reply as [e | status hdrs body parsed]; simpl; [done |].
    destruct (status_in_401_403 status); [done |].
    destruct (negb (status =? 200)); [done |].
    destruct parsed as [[| | | | | | d] |]; try done.
    destruct (truthy _); [| done]. destruct (py_int _); [| done].
    by destruct (int_overflows _).
Qed.

(** The shape of every run of [async_get_access_token]. A run that
    raises has sent the token request and has kept the expiry; it has
    changed the client in one case only, that of a token whose
    [expires_in] is beyond the range of a float: the token is stored
    before the sum that raises [OverflowError]. *)
Lemma token_shape (now : PrimFloat.float) (reply : http_reply)
    (self : EleringEstfeedApiClient) :
  let run := async_get_access_token now reply self in
  (run.2 = [] \/ run.2 = [TokenPost (_client_id self) (_client_secret self)]) /\
  (forall e, run.1.1 = Raise e ->
     run.2 = [TokenPost (_client_id self) (_client_secret self)] /\
     e <> ClientError /\
     _token_expiry run.1.2 = _token_expiry self /\
     (run.1.2 = self \/
      exists hdrs body d n,
        reply = Response 200 hdrs body (Some (JDict d)) /\
        truthy (dict_get "access_token" d) = true /\
        py_int (default (JInt 300) (dict_lookup "expires_in" d)) = Ok n /\
        int_overflows n = true /\
        e = OverflowError /\
        run.1.2 = set_token (Some (dict_get "access_token" d)) self)) /\
  (forall tok, run.1.1 = Ok tok -> _access_token run.1.2 = Some tok) /\
  _client_id run.1.2 = _client_id self /\
  _client_secret run.1.2 = _client_secret self.
Proof.
  cbv zeta.
  assert (Hex : _access_token self = None \/
                (now <? _token_expiry self)%float = false ->
                let run := async_get_access_token now reply self in
                run.2 = [TokenPost (_client_id self) (_client_secret self)] /\
                (forall e, run.1.1 = Raise e ->
                   e <> ClientError /\
                   _token_expiry run.1.2 = _token_expiry self /\
                   (run.1.2 = self \/
                    exists hdrs body d n,
                      reply = Response 200 hdrs body (Some (JDict d)) /\
                      truthy (dict_get "access_token" d) = true /\
                      py_int (default (JInt 300) (dict_lookup "expires_in" d)) = Ok n /\
                      int_overflows n = true /\
                      e = OverflowError /\
                      run.1.2 = set_token (Some (dict_get "access_token" d)) self)) /\
                (forall tok, run.1.1 = Ok tok -> _access_token run.1.2 = Some tok) /\
                _client_id run.1.2 = _client_id self /\
                _client_secret run.1.2 = _client_secret self).
  { intros Hc. cbv zeta. rewrite (token_exchange now reply self Hc). cbv zeta.
    destruct reply as [e0 | status hdrs body parsed]; simpl.
    { split; [done |]. split; [| done].
      intros e [= <-]. split; [by destruct e0 |]. split; [done | by left]. }
    destruct (status_in_401_403 status) eqn:E4; simpl.
    { split; [done |]. split; [| done].
      intros e [= <-]. split; [done |]. split; [done | by left]. }
    destruct (negb (status =? 200)) eqn:E2; simpl.
    { split; [done |]. split; [| done].
      intros e [= <-]. split; [done |]. split; [done | by left]. }
    apply negb_false_iff, Z.eqb_eq in E2. subst status.
    destruct parsed as [[| | | | | | d] |]; simpl;
      try (split; [done |]; split; [| done];
           intros e [= <-]; split; [done |]; split; [done | by left]).
    destruct (truthy (dict_get "access_token" d)) eqn:Et; simpl;
      [| split; [done |]; split; [| done];
         intros e [= <-]; split; [done |]; split; [done | by left]].
    destruct (py_int _) as [n | e1] eqn:Ep; simpl.
    - destruct (int_overflows n) eqn:Eo; simpl.
      + split; [done |]. split; [| done].
        intros e [= <-]. split; [done |]. split; [done |].
        right. by exists hdrs, body, d, n.
      + split; [done |]. split; [discriminate |]. split; [| done].
        by intros tok [= <-].
    - split; [done |]. split; [| done].
      intros e [= <-]. split.
      { unfold py_int in Ep. intros ->. unfold int_of_float in Ep.
        repeat case_match; discriminate. }
      split; [done | by left]. }
  destruct (_access_token self) as [tok0 |] eqn:Et;
    [destruct (now <? _token_expiry self)%float eqn:El |].
  - rewrite (token_cached now reply self tok0 Et El). simpl.
    split; [by left |]. split; [discriminate |]. split; [| done].
    by intros tok [= <-].
  - destruct (Hex (or_intror eq_refl)) as (Htr & Hraise & Hok & Hid).
    split; [by right |]. split; [| by split].
    intros e He. split; [exact Htr |]. by apply Hraise.
  - destruct (Hex (or_introl eq_refl)) as (Htr & Hraise & Hok & Hid).
    split; [by right |]. split; [| by split].
    intros e He. split; [exact Htr |]. by apply Hraise.
Qed.

(** *** The token cache *)

(** C8: a cached token whose expiry is still ahead is returned as it is,
    with no request and no change of state. Otherwise one token request
    is sent; a 200 response with an [access_token] and an [expires_in]
    that [int] accepts and that is in the range of a float makes the
    call return that token, store it, and set the expiry to
    [now + int(expires_in) - 30], which is [now + 300 - 30] when the
    response has no [expires_in]; and the call returns a token in no
    other case. *)
Theorem C8_token_cache (self : EleringEstfeedApiClient) (now : PrimFloat.float)
    (reply : http_reply) :
  let '(r, self', tr) := async_get_access_token now reply self in
  (forall tok, _access_token self = Some tok ->
     (now <? _token_expiry self)%float = true ->
     r = Ok tok /\ self' = self /\ tr = []) /\
  (_access_token self = None \/ (now <? _token_expiry self)%float = false ->
     tr = [TokenPost (_client_id self) (_client_secret self)] /\
     (forall hdrs body d expires_in,
        reply = Response 200 hdrs body (Some (JDict d)) ->
        truthy (dict_get "access_token" d) = true ->
        py_int (default (JInt 300) (dict_lookup "expires_in" d)) = Ok expires_in ->
        int_overflows expires_in = false ->
        r = Ok (dict_get "access_token" d) /\
        self' = set_token_expiry (now + float_of_int expires_in - 30)%float
                  (set_token (Some (dict_get "access_token" d)) self)) /\
     (forall hdrs body d,
        reply = Response 200 hdrs body (Some (JDict d)) ->
        truthy (dict_get "access_token" d) = true ->
        dict_lookup "expires_in" d = None ->
        r = Ok (dict_get "access_token" d) /\
        _access_token self' = Some (dict_get "access_token" d) /\
        _token_expiry self' = (now + 300 - 30)%float) /\
     (forall tok, r = Ok tok ->
        exists hdrs body d expires_in,
          reply = Response 200 hdrs body (Some (JDict d)) /\
          tok = dict_get "access_token" d /\
          truthy tok = true /\
          py_int (default (JInt 300) (dict_lookup "expires_in" d)) = Ok expires_in /\
          int_overflows expires_in = false /\
          (dict_lookup "expires_in" d = None -> expires_in = 300) /\
          _access_token self' = Some tok /\
          _token_expiry self' = (now + float_of_int expires_in - 30)%float)).
Proof.
  destruct (async_get_access_token now reply self) as [[r self'] tr] eqn:Erun.
  split.
  - intros tok Ht Hlt.
    rewrite (token_cached now reply self tok Ht Hlt) in Erun.
    by injection Erun as <- <- <-.
  - intros Hc. rewrite (token_exchange now reply self Hc) in Erun.
    cbv zeta in Erun.
    split; [| split; [| split]].
    + repeat case_match; by injection Erun as _ _ <-.
    + intros hdrs body d expires_in -> Ht Hp Ho.
      simpl in Erun. rewrite Ht, Hp, Ho in Erun.
      by injection Erun as <- <- _.
    + intros hdrs body d -> Ht Hnone.
      simpl in Erun. rewrite Ht, Hnone in Erun. simpl in Erun.
      by injection Erun as <- <- _.
    + intros tok ->.
      destruct reply as [e0 | status hdrs body parsed]; [discriminate |].
      destruct (status_in_401_403 status); [discriminate |].
      destruct (negb (status =? 200)) eqn:E2; [discriminate |].
      apply negb_false_iff, Z.eqb_eq in E2. subst status.
      destruct parsed as [[| | | | | | d] |]; try discriminate.
      destruct (truthy (dict_get "access_token" d)) eqn:Et; [| discriminate].
      destruct (py_int _) as [n | e1] eqn:Ep; [| discriminate].
      destruct (int_overflows n) eqn:Eo; [discriminate |].
      injection Erun as <- <- _.
      exists hdrs, body, d, n.
      split; [done |]. split; [done |]. split; [done |]. split; [done |].
      split; [done |]. split; [| done].
      intros Hnone. rewrite Hnone in Ep. simpl in Ep. congruence.
Qed.

(** C10: when an exchange is made and the 200 response has no
    [access_token], or has [null] or the empty string there, the call
    raises [EleringAuthError] and the client is left as it was, cached
    token and expiry included. *)
Theorem C10_token_missing (self : EleringEstfeedApiClient) (now : PrimFloat.float)
    (hdrs : gmap string string) (body : string) (d : list (string * json)) :
  _access_token self = None \/ (now <? _token_expiry self)%float = false ->
  dict_lookup "access_token" d = None \/
  dict_lookup "access_token" d = Some JNull \/
  dict_lookup "access_token" d = Some (JStr "") ->
  let '(r, self', tr) :=
    async_get_access_token now (Response 200 hdrs body (Some (JDict d))) self in
  r = Raise EleringAuthError /\
  self' = self /\
  _access_token self' = _access_token self /\
  _token_expiry self' = _token_expiry self /\
  tr = [TokenPost (_client_id self) (_client_secret self)].
Proof.
  intros Hc Hd.
  assert (Ht : truthy (dict_get "access_token" d) = false).
  { unfold dict_get. destruct Hd as [-> | [-> | ->]]; reflexivity. }
  rewrite (token_exchange now _ self Hc). simpl. by rewrite Ht.
Qed.

(** *** The rate limiter *)

Lemma waits_app (tr tr' : list event) : waits (tr ++ tr') = waits tr + waits tr'.
Proof. unfold waits. rewrite List.filter_app, List.length_app. lia. Qed.

Lemma waits_cons (ev : event) (tr : list event) :
  waits (ev :: tr) = (if is_sleep ev then 1 else 0) + waits tr.
Proof. unfold waits. simpl. destruct (is_sleep ev); simpl; lia. Qed.

(** The request path, case by case: the rate limiter, then the token,
    then the request with the token obtained. *)
Lemma request_shape (env : request_env) (method path : string)
    (params : list (string * string)) (self : EleringEstfeedApiClient) :
  let run := _async_request env method path params self in
  let en := _async_enforce_rate_limit (mono_enforce env) self in
  let tk := async_get_access_token (mono_token env) (token_reply env) en.1.2 in
  match tk.1.1 with
  | Raise e => run = (Raise e, tk.1.2, en.2 ++ tk.2)
  | Ok tok =>
      let ev := ApiRequest method (_api_host tk.1.2 +:+ path) tok params in
      match api_reply env with
      | Fails e =>
          run = (Raise (match e with ClientError => EleringConnectionError | _ => e end),
                 tk.1.2, en.2 ++ tk.2 ++ [ev])
      | Response status headers body parsed =>
          let seen :=
            set_rate_limit_headers (captured_headers headers)
              (set_next_allowed_mono (mono_done env + 5)%float
                 (set_last_request_time (Some (wall_done env)) tk.1.2)) in
          run.2 = en.2 ++ tk.2 ++ [ev] /\
          run.1 =
            if status_in_401_403 status then
              (Raise EleringAuthError, set_token None seen)
            else if negb (status =? 200) then (Raise EleringEstfeedError, seen)
            else match parsed with
                 | Some j => (Ok j, seen)
                 | None => (Raise ValueError, seen)
                 end
      end
  end.
Proof.
  cbv zeta. unfold _async_request. unfold_m. m_simpl.
  rewrite enforce_run.
  assert (Hadd : forall x, float_add_int x RATE_LIMIT_SECONDS = Ok (x + 5)%float)
    by apply add_rate_limit.
  destruct (mono_enforce env <? _next_allowed_mono self)%float; m_simpl.
  - destruct (async_get_access_token _ _ (set_blocked_count _ self)) as [[r2 s2] t2].
    destruct r2; m_simpl; [| done].
    destruct (api_reply env) as [e | status headers body parsed]; m_simpl.
    + by destruct e.
    + rewrite Hadd. m_simpl. m_cases.
  - destruct (async_get_access_token _ _ self) as [[r2 s2] t2].
    destruct r2; m_simpl; [| done].
    destruct (api_reply env) as [e | status headers body parsed]; m_simpl.
    + by destruct e.
    + rewrite Hadd. m_simpl. m_cases.
Qed.

Lemma request_issued_app (tr tr' : list event) :
  request_issued (tr ++ tr') = request_issued tr || request_issued tr'.
Proof. unfold request_issued. apply existsb_app. Qed.

Lemma enforce_sends_nothing (now : PrimFloat.float) (self : EleringEstfeedApiClient) :
  let en := _async_enforce_rate_limit now self in
  request_issued en.2 = false /\
  List.filter is_api_request en.2 = [] /\
  List.filter is_token_post en.2 = [] /\
  _access_token en.1.2 = _access_token self /\
  _token_expiry en.1.2 = _token_expiry self /\
  _next_allowed_mono en.1.2 = _next_allowed_mono self /\
  _last_request_time en.1.2 = _last_request_time self /\
  _rate_limit_headers en.1.2 = _rate_limit_headers self.
Proof.
  cbv zeta. rewrite enforce_run.
  destruct (now <? _next_allowed_mono self)%float; done.
Qed.

(** Only [_async_enforce_rate_limit] writes [_blocked_count], and only
    when it sleeps. *)
Lemma request_blocked_count (env : request_env) (method path : string)
    (params : list (string * string)) (self : EleringEstfeedApiClient) :
  let run := _async_request env method path params self in
  _blocked_count run.1.2 = _blocked_count self + waits run.2.
Proof.
  cbv zeta.
  pose proof (request_shape env method path params self) as Hs. cbv zeta in Hs.
  pose proof (token_frame (mono_token env) (token_reply env)
                (_async_enforce_rate_limit (mono_enforce env) self).1.2) as Hf.
  rewrite enforce_run in *.
  destruct (async_get_access_token _ _ _) as [[r2 s2] t2]. simpl in Hs.
  destruct Hf as (_ & _ & _ & Hb & _ & Hw & _).
  assert (Hen : _blocked_count s2 =
                _blocked_count self +
                waits (if (mono_enforce env <? _next_allowed_mono self)%float
                       then (Ok tt, set_blocked_count (_blocked_count self + 1) self,
                             [Sleep (_next_allowed_mono self - mono_enforce env)%float])
                       else (Ok tt, self, [])).2).
  { rewrite Hb. destruct (_ <? _)%float; unfold waits; simpl; lia. }
  destruct r2 as [tok | e].
  - destruct (api_reply env) as [e | status headers body parsed].
    + rewrite Hs. simpl. rewrite !waits_app, Hw, Hen. unfold waits at 3. simpl. lia.
    + destruct Hs as [Htr Hst]. rewrite Htr, !waits_app, Hw.
      replace (_blocked_count (_async_request env method path params self).1.2)
        with (_blocked_count s2).
      * rewrite Hen. unfold waits at 3. simpl. lia.
      * change ((_async_request env method path params self).1.2)
          with ((_async_request env method path params self).1).2.
        rewrite Hst. repeat case_match; done.
  - rewrite Hs. simpl. rewrite !waits_app, Hw, Hen. lia.
Qed.

Lemma run_call_blocked_count (c : client_call) (self : EleringEstfeedApiClient) :
  let run := run_call c self in
  _blocked_count run.1.2 = _blocked_count self + waits run.2.
Proof.
  cbv zeta. destruct c as [now | now reply | env method path params | t]; simpl.
  - rewrite enforce_run.
    destruct (now <? _next_allowed_mono self)%float; unfold waits; simpl; lia.
  - pose proof (token_frame now reply self) as Hf. unfold_m.
    destruct (async_get_access_token now reply self) as [[r s] t].
    destruct Hf as (_ & _ & _ & Hb & _ & Hw & _).
    destruct r; simpl; rewrite ?waits_cons, ?waits_app, ?Hw, Hb; simpl;
      unfold waits; simpl; lia.
  - pose proof (request_blocked_count env method path params self) as Hr.
    cbv zeta in Hr. unfold_m.
    destruct (_async_request env method path params self) as [[r s] t].
    simpl in Hr.
    destruct r; simpl; rewrite ?waits_cons, ?waits_app, Hr; simpl;
      unfold waits; simpl; lia.
  - unfold waits. simpl. lia.
Qed.

Lemma run_calls_blocked_count (cs : list client_call) :
  forall self : EleringEstfeedApiClient,
  _blocked_count (run_calls cs self).1 = _blocked_count self + waits (run_calls cs self).2.
Proof.
  induction cs as [| c cs IH]; intros self; simpl.
  - unfold waits. simpl. lia.
  - pose proof (run_call_blocked_count c self) as Hc. cbv zeta in Hc.
    destruct (run_call c self) as [[r s] t]. simpl in Hc.
    specialize (IH s). destruct (run_calls cs s) as [s' t']. simpl in *.
    rewrite waits_app. lia.
Qed.

(** C9: before [next_allowed] the call sleeps for [next_allowed - now]
    and adds one to [blocked_count], changing nothing else; otherwise it
    does nothing. Over any sequence of calls on the client,
    [blocked_count] grows by the number of sleeps. *)
Theorem C9_enforce_counts_waits (self : EleringEstfeedApiClient)
    (now : PrimFloat.float) :
  (let run := _async_enforce_rate_limit now self in
   run.1.1 = Ok tt /\
   ((now <? _next_allowed_mono self)%float = true ->
      run.2 = [Sleep (_next_allowed_mono self - now)%float] /\
      _blocked_count run.1.2 = _blocked_count self + 1 /\
      run.1.2 = set_blocked_count (_blocked_count self + 1) self) /\
   ((now <? _next_allowed_mono self)%float = false ->
      run.2 = [] /\ run.1.2 = self)) /\
  (forall cs : list client_call,
     _blocked_count (run_calls cs self).1 =
     _blocked_count self + waits (run_calls cs self).2).
Proof.
  split; [| intros cs; apply run_calls_blocked_count].
  cbv zeta. rewrite enforce_run.
  destruct (now <? _next_allowed_mono self)%float; simpl.
  - split; [done |]. split; [done |]. discriminate.
  - split; [done |]. split; [discriminate | done].
Qed.

(** *** The request path *)

(** C1 (amended): when the request was sent and a response came back,
    whatever its status, the time of the request, the next allowed time
    and the rate-limit headers of the response are recorded. When the
    request was sent and the session raised instead, there is no
    response and the three fields are left as they were; the call
    raises [EleringConnectionError] for an [aiohttp.ClientError], and
    lets any other exception out as it is, the [TimeoutError] of a
    timeout among them. *)
Theorem C1_rate_limit_recorded (env : request_env) (method path : string)
    (params : list (string * string)) (self : EleringEstfeedApiClient) :
  let run := _async_request env method path params self in
  request_issued run.2 = true ->
  match api_reply env with
  | Response status headers body parsed =>
      _last_request_time run.1.2 = Some (wall_done env) /\
      _next_allowed_mono run.1.2 = (mono_done env + 5)%float /\
      _rate_limit_headers run.1.2 = captured_headers headers
  | Fails e =>
      run.1.1 = Raise (match e with
                       | ClientError => EleringConnectionError
                       | _ => e
                       end) /\
      _last_request_time run.1.2 = _last_request_time self /\
      _next_allowed_mono run.1.2 = _next_allowed_mono self /\
      _rate_limit_headers run.1.2 = _rate_limit_headers self
  end.
Proof.
  cbv zeta.
  pose proof (request_shape env method path params self) as Hs. cbv zeta in Hs.
  pose proof (enforce_sends_nothing (mono_enforce env) self)
    as (He & _ & _ & _ & _ & Hn0 & Hl0 & Hh0).
  pose proof (token_frame (mono_token env) (token_reply env)
                (_async_enforce_rate_limit (mono_enforce env) self).1.2) as Hf.
  destruct (async_get_access_token _ _ _) as [[r2 s2] t2]. simpl in Hs.
  destruct Hf as (_ & Hn & Hl & _ & Hh & _ & Hi).
  destruct r2 as [tok | e].
  - destruct (api_reply env) as [e | status headers body parsed]; intros _.
    + rewrite Hs. simpl. by rewrite Hn, Hl, Hh, Hn0, Hl0, Hh0.
    + destruct Hs as [_ Hst].
      change ((_async_request env method path params self).1.2)
        with ((_async_request env method path params self).1).2.
      rewrite Hst. repeat case_match; done.
  - rewrite Hs. simpl. rewrite request_issued_app, He, Hi. discriminate.
Qed.

(** *** The response normaliser *)

Lemma wrapper_eic_dict (d : list (string * json)) :
  py_or (py_or (dict_get "meteringPointEic" d) (dict_get "eic" d)) (JStr "") =
  wrapper_eic (JDict d).
Proof.
  unfold py_or, wrapper_eic.
  destruct (truthy (dict_get "meteringPointEic" d)) eqn:E1; [by rewrite E1 |].
  destruct (truthy (dict_get "eic" d)) eqn:E2; reflexivity.
Qed.

Lemma unwrap_dict_first_truthy (d : list (string * json)) :
  unwrap_dict d = first_truthy unwrap_keys d.
Proof.
  unfold unwrap_dict, unwrap_keys, first_truthy, py_or.
  destruct (truthy (dict_get "meteringData" d)) eqn:E1; rewrite ?E1; [done |].
  destruct (truthy (dict_get "data" d)) eqn:E2; rewrite ?E2; [done |].
  destruct (truthy (dict_get "content" d)) eqn:E3; rewrite ?E3; [done |].
  destruct (truthy (dict_get "measurements" d)) eqn:E4; rewrite ?E4; done.
Qed.

(** The three ways the loop treats the entry it visits. *)
Lemma scan_items_match (data : list json) (eic : string) (item : json)
    (rest : list json) :
  wrapper_for eic item = true ->
  scan_items data eic (item :: rest) = wrapper_measurements item.
Proof.
  unfold wrapper_for. intros [Hw He]%andb_true_iff.
  destruct item; try discriminate. simpl in *.
  rewrite Hw, wrapper_eic_dict. simpl. by rewrite He.
Qed.

Lemma scan_items_flat (data : list json) (eic : string) (item : json)
    (rest : list json) :
  is_wrapper item = false ->
  scan_items data eic (item :: rest) = JList data.
Proof.
  intros Hw. destruct item; try reflexivity. simpl in *. by rewrite Hw.
Qed.

Lemma scan_items_other (data : list json) (eic : string) (item : json)
    (rest : list json) :
  other_wrapper eic item = true ->
  scan_items data eic (item :: rest) =
  if Z.of_nat (length data) =? 1 then wrapper_measurements item
  else scan_items data eic rest.
Proof.
  unfold other_wrapper. intros [Hw He]%andb_true_iff.
  apply negb_true_iff in He.
  destruct item; try discriminate. simpl in *.
  rewrite Hw, wrapper_eic_dict. simpl. by rewrite He.
Qed.

Lemma scan_items_skip (data : list json) (eic : string) (pre rest : list json) :
  Z.of_nat (length data) <> 1 ->
  forallb (other_wrapper eic) pre = true ->
  scan_items data eic (pre ++ rest) = scan_items data eic rest.
Proof.
  intros Hlen. induction pre as [| item pre IH]; intros Hpre; [done |].
  simpl in Hpre. apply andb_true_iff in Hpre as [Hitem Hpre].
  change ((item :: pre) ++ rest) with (item :: (pre ++ rest)).
  rewrite scan_items_other by done.
  apply Z.eqb_neq in Hlen. rewrite Hlen. by apply IH.
Qed.

(** A list of length one that has an entry after [pre] has no [pre]. *)
Lemma sole_entry (pre post : list json) (item : json) :
  Z.of_nat (length (pre ++ item :: post)) = 1 -> pre = [] /\ post = [].
Proof.
  rewrite length_app. simpl. intros Hlen.
  destruct pre; [destruct post; [done | simpl in Hlen; lia] | simpl in Hlen; lia].
Qed.

(** C7 (amended): a top-level dict is replaced by the value of the first
    key of the preference list whose value is true (by the empty list if
    there is none). A value that is then not a list gives the empty
    list. A list is scanned in order: wrappers for another EIC are
    passed over; the first wrapper for the requested EIC gives its
    measurements, and so does a sole wrapper whatever its EIC; the first
    entry that is not a wrapper makes the whole list the result, so a
    flat list is returned as it is, and so is a list in which wrappers
    for other EICs come before a flat entry; a list of wrappers none of
    which matches, other than a sole one, gives the empty list. *)
Theorem C7_normalizer (eic : string) :
  (forall d,
     unwrap_dict d = first_truthy unwrap_keys d /\
     _extract_measurements (JDict d) eic =
       match unwrap_dict d with
       | JList l => _extract_measurements (JList l) eic
       | _ => JList []
       end) /\
  (forall pre item post,
     forallb (other_wrapper eic) pre = true -> wrapper_for eic item = true ->
     _extract_measurements (JList (pre ++ item :: post)) eic =
     wrapper_measurements item) /\
  (forall item,
     is_wrapper item = true ->
     _extract_measurements (JList [item]) eic = wrapper_measurements item) /\
  (forall pre item post,
     forallb (other_wrapper eic) pre = true -> is_wrapper item = false ->
     _extract_measurements (JList (pre ++ item :: post)) eic =
     JList (pre ++ item :: post)) /\
  (forall l,
     forallb (other_wrapper eic) l = true -> length l <> 1%nat ->
     _extract_measurements (JList l) eic = JList []) /\
  (forall data,
     match data with JList _ | JDict _ => False | _ => True end ->
     _extract_measurements data eic = JList []).
Proof.
  split; [| split; [| split; [| split; [| split]]]].
  - intros d. split; [apply unwrap_dict_first_truthy |].
    unfold _extract_measurements. destruct (unwrap_dict d); reflexivity.
  - intros pre item post Hpre Hitem. unfold _extract_measurements.
    destruct (decide (Z.of_nat (length (pre ++ item :: post)) = 1)) as [Hlen | Hlen].
    + apply sole_entry in Hlen as [-> ->]. by apply scan_items_match.
    + rewrite scan_items_skip by done. by apply scan_items_match.
  - intros item Hw. unfold _extract_measurements.
    destruct (wrapper_for eic item) eqn:Hm.
    + by apply scan_items_match.
    + rewrite scan_items_other; [reflexivity |].
      unfold other_wrapper, wrapper_for in *. rewrite Hw in *. simpl in *.
      by rewrite Hm.
  - intros pre item post Hpre Hitem. unfold _extract_measurements.
    destruct (decide (Z.of_nat (length (pre ++ item :: post)) = 1)) as [Hlen | Hlen].
    + apply sole_entry in Hlen as [-> ->]. by apply scan_items_flat.
    + rewrite scan_items_skip by done. by apply scan_items_flat.
  - intros l Hl Hlen. unfold _extract_measurements.
    rewrite <- (app_nil_r l) at 2.
    rewrite scan_items_skip; [reflexivity | lia | exact Hl].
  - intros data Hd. destruct data; try reflexivity; contradiction.
Qed.

End ClientClaims.

(** ** The client on sample data *)

Section ClientSamples.
Import Const Api Samples.

Example token_exchange_with_expiry :
  async_get_access_token (builtins := decimal) 10 token_ok client0 =
  (Ok (JStr "tok-1"),
   set_token_expiry (10 + 3600 - 30)%float (set_token (Some (JStr "tok-1")) client0),
   [TokenPost "id" "secret"]).
Proof. reflexivity. Qed.

Example token_exchange_default_expiry :
  async_get_access_token (builtins := decimal) 10 token_without_expiry client0 =
  (Ok (JStr "tok-2"),
   set_token_expiry (10 + 300 - 30)%float (set_token (Some (JStr "tok-2")) client0),
   [TokenPost "id" "secret"]).
Proof. reflexivity. Qed.

Lemma C10_token_missing_witness :
  let '(r, self', tr) :=
    async_get_access_token (builtins := decimal) 10 token_empty client0 in
  r = Raise EleringAuthError /\
  self' = client0 /\
  _access_token self' = _access_token client0 /\
  _token_expiry self' = _token_expiry client0 /\
  tr = [TokenPost (_client_id client0) (_client_secret client0)].
Proof.
  apply (C10_token_missing (builtins := decimal) client0 10 ∅ "{...}"
           [("access_token", JStr ""); ("expires_in", JInt 3600)]).
  - left. reflexivity.
  - right. right. reflexivity.
Defined.

(** The exchange of a new client at time 10 stores the token and the
    expiry [10 + 3600 - 30]; the token cached then is returned at time
    20 without a request, whatever the token endpoint would answer. *)
Lemma C8_token_cache_witness :
  async_get_access_token (builtins := decimal) 10 token_ok client0 =
    (Ok (JStr "tok-1"), client_cached, [TokenPost "id" "secret"]) /\
  async_get_access_token (builtins := decimal) 20 (Fails ClientError) client_cached =
    (Ok (JStr "tok-1"), client_cached, []).
Proof.
  split.
  - pose proof (C8_token_cache (builtins := decimal) client0 10 token_ok) as H.
    destruct (async_get_access_token 10 token_ok client0) as [[r s] t].
    destruct H as [_ H].
    destruct (H (or_introl eq_refl)) as (-> & Hok & _).
    destruct (Hok ∅ "{...}"
                [("access_token", JStr "tok-1"); ("expires_in", JInt 3600)] 3600
                eq_refl eq_refl eq_refl eq_refl) as (-> & ->).
    reflexivity.
  - pose proof (C8_token_cache (builtins := decimal) client_cached 20
                  (Fails ClientError)) as H.
    destruct (async_get_access_token 20 (Fails ClientError) client_cached)
      as [[r s] t].
    destruct H as [H _].
    destruct (H (JStr "tok-1") eq_refl eq_refl) as (-> & -> & ->).
    reflexivity.
Defined.

(** The three tests of the rate limiter in tests/test_rate_limiter.py. *)
Example test_rate_limiter_no_wait_first_call :
  _async_enforce_rate_limit 0.001 client0 = (Ok tt, client0, []).
Proof. reflexivity. Qed.

Example test_rate_limiter_blocks_second_call :
  _async_enforce_rate_limit 100 (set_next_allowed_mono (100 + 0.3) client0) =
  (Ok tt,
   set_blocked_count 1 (set_next_allowed_mono (100 + 0.3) client0),
   [Sleep (100 + 0.3 - 100)%float]).
Proof. reflexivity. Qed.

Example test_rate_limiter_increments_blocked_count :
  _blocked_count
    (run_calls (builtins := decimal)
       [Poke (100 + 0.05); CallEnforce 100;
        Poke (101 + 0.05); CallEnforce 101;
        Poke (102 + 0.05); CallEnforce 102] client0).1 = 3.
Proof. reflexivity. Qed.

Lemma C9_enforce_counts_waits_witness :
  (_async_enforce_rate_limit 100
     (set_next_allowed_mono (100 + 0.3) client0)).2 =
  [Sleep (100 + 0.3 - 100)%float] /\
  _blocked_count
    (_async_enforce_rate_limit 100
       (set_next_allowed_mono (100 + 0.3) client0)).1.2 = 0 + 1.
Proof.
  pose proof (C9_enforce_counts_waits (builtins := decimal)
                (set_next_allowed_mono (100 + 0.3) client0) 100) as [H _].
  destruct H as (_ & H & _).
  destruct (H eq_refl) as (Ht & Hb & _).
  exact (conj Ht Hb).
Defined.

(** The two tests of the header capture. *)
Example test_capture_rate_limit_headers :
  captured_headers (builtins := decimal) rl_headers =
  {[ "rate_limit_limit" := 100; "rate_limit_remaining" := 42;
     "rate_limit_reset" := 1700000000 ]}.
Proof. vm_compute. reflexivity. Qed.

Example test_capture_rate_limit_headers_ignores_non_integer :
  captured_headers (builtins := decimal)
    {[ "X-RateLimit-Limit" := "not-a-number" ]} = ∅.
Proof. vm_compute. reflexivity. Qed.

(** C1, as the spec states it, fails for a transport failure: the
    request is sent, the call raises [EleringConnectionError], and the
    time of the request, the next allowed time and the headers are as
    before the call. *)
Lemma C1_transport_failure_not_recorded :
  let run := _async_request (builtins := decimal) env_unreachable
               "GET" METERING_DATA_PATH [] client0 in
  run.1.1 = Raise EleringConnectionError /\
  request_issued run.2 = true /\
  _last_request_time run.1.2 = None /\
  _next_allowed_mono run.1.2 = 0%float /\
  (_next_allowed_mono run.1.2 =? mono_done env_unreachable + 5)%float = false /\
  _rate_limit_headers run.1.2 = ∅.
Proof.
  cbv zeta.
  assert (Hrun : _async_request (builtins := decimal) env_unreachable
                   "GET" METERING_DATA_PATH [] client0 =
                 (Raise EleringConnectionError,
                  set_token_expiry (10 + 3600 - 30)%float
                    (set_token (Some (JStr "tok-1")) client0),
                  [TokenPost "id" "secret";
                   ApiRequest "GET"
                     "https://test.example.com/api/public/v1/metering-data"
                     (JStr "tok-1") []]))
    by reflexivity.
  rewrite Hrun. simpl. repeat split.
Qed.

(** A timeout of the session is not an [aiohttp.ClientError]: it gets
    out of the call as it is, and nothing is recorded either. *)
Example timeout_gets_out :
  let run := _async_request (builtins := decimal) Fixtures.env_timeout
               "GET" METERING_DATA_PATH [] client0 in
  run.1.1 = Raise TimeoutError /\
  request_issued run.2 = true /\
  _last_request_time run.1.2 = None /\
  _next_allowed_mono run.1.2 = 0%float.
Proof. cbv zeta. repeat split. Qed.

Lemma C1_rate_limit_recorded_witness :
  let run := _async_request (builtins := decimal) env_ok
               "GET" METERING_DATA_PATH [] client0 in
  let out := _async_request (builtins := decimal) Fixtures.env_timeout
               "GET" METERING_DATA_PATH [] client0 in
  (_last_request_time run.1.2 = Some (wall_done env_ok) /\
   _next_allowed_mono run.1.2 = (mono_done env_ok + 5)%float /\
   _rate_limit_headers run.1.2 = captured_headers (builtins := decimal) rl_headers) /\
  (out.1.1 = Raise TimeoutError /\
   _last_request_time out.1.2 = _last_request_time client0 /\
   _next_allowed_mono out.1.2 = _next_allowed_mono client0 /\
   _rate_limit_headers out.1.2 = _rate_limit_headers client0).
Proof.
  split.
  - exact (C1_rate_limit_recorded (builtins := decimal) env_ok
             "GET" METERING_DATA_PATH [] client0 eq_refl).
  - exact (C1_rate_limit_recorded (builtins := decimal) Fixtures.env_timeout
             "GET" METERING_DATA_PATH [] client0 eq_refl).
Defined.

(** C7, as the spec states it, fails on a list that mixes the two kinds
    of entry: a wrapper for another EIC followed by a flat record. The
    list is not a dict, not a list of wrappers and not a flat list, no
    wrapper matches, and the result is the whole list, wrapper
    included, not the empty list. *)
Lemma C7_mixed_list_returned_whole :
  let first := wrapper "38ZEE-00000000-B" [flat "2025-01-01T00:00:00+0000"] in
  let second := flat "2025-01-01T01:00:00+0000" in
  is_wrapper first = true /\ wrapper_for "38ZEE-00000000-A" first = false /\
  is_wrapper second = false /\
  _extract_measurements (JList [first; second]) "38ZEE-00000000-A" =
    JList [first; second] /\
  _extract_measurements (JList [first; second]) "38ZEE-00000000-A" <> JList [].
Proof. cbv zeta. repeat split. discriminate. Qed.

(** The examples of the spec: the wrapper of the requested EIC, a flat
    list, an unrecognised dict. *)
Lemma C7_normalizer_witness :
  _extract_measurements
    (JList [wrapper "A" [flat "2025-01-01T00:00:00+0000"]]) "A" =
    JList [flat "2025-01-01T00:00:00+0000"] /\
  _extract_measurements
    (JList [flat "2025-01-01T00:00:00+0000"; flat "2025-01-01T01:00:00+0000"]) "A" =
    JList [flat "2025-01-01T00:00:00+0000"; flat "2025-01-01T01:00:00+0000"] /\
  _extract_measurements
    (JList [wrapper "B" []; wrapper "C" []]) "A" = JList [].
Proof.
  destruct (C7_normalizer "A") as (_ & Hmatch & _ & Hflat & Hnone & _).
  split; [| split].
  - exact (Hmatch [] (wrapper "A" [flat "2025-01-01T00:00:00+0000"]) []
             eq_refl eq_refl).
  - exact (Hflat [] (flat "2025-01-01T00:00:00+0000")
             [flat "2025-01-01T01:00:00+0000"] eq_refl eq_refl).
  - apply (Hnone [wrapper "B" []; wrapper "C" []] eq_refl). discriminate.
Defined.

Example unrecognised_dict_gives_nothing :
  _extract_measurements (JDict [("status", JStr "ok")]) "A" = JList [].
Proof. reflexivity. Qed.

End ClientSamples.

(** * Further properties of the client *)

Section ClientMore.
Import Const Api.
Context {builtins : Builtins}.

Ltac unfold_m :=
  unfold mbind, mret, mthrow, M_bind, M_ret, M_throw, get_self, modify, emit,
    try_except, lift_outcome, reraise_client_error in *.

Ltac m_simpl :=
  cbn -[Z.eqb Z.add PrimFloat.ltb PrimFloat.add PrimFloat.sub float_add_int
        float_sub_int float_of_int int_overflows truthy dict_get dict_lookup
        py_int status_in_401_403 captured_headers TOKEN_EXPIRY_MARGIN
        RATE_LIMIT_SECONDS].

Ltac m_step :=
  match goal with
  | |- context [match ?x with _ => _ end] =>
      lazymatch x with
      | context [match _ with _ => _ end] => fail
      | _ => destruct x eqn:?
      end
  end.

Ltac m_cases := repeat (m_step; m_simpl; try done).

(** *** The header snapshot *)

Lemma capture_one_lookup (headers : gmap string string) (new : gmap string Z)
    (header key k : string) :
  capture_one headers new (header, key) !! k =
  if decide (key = k) then
    match headers !! header ≫= int_of_str with
    | Some n => Some n
    | None => new !! k
    end
  else new !! k.
Proof.
  unfold capture_one. simpl.
  destruct (headers !! header) as [value |]; simpl.
  - destruct (int_of_str value) as [n |]; simpl.
    + rewrite lookup_insert. destruct (decide (key = k)); done.
    + destruct (decide (key = k)); done.
  - destruct (decide (key = k)); done.
Qed.


(** X1: The snapshot holds, under each of the three keys, the integer value
    of the header of this response, if the response has the header and
    its value is an integer, and nothing else: what an earlier response
    left is gone. *)
Theorem capture_headers_exact (headers : gmap string string)
    (self : EleringEstfeedApiClient) :
  let snapshot := _rate_limit_headers (_capture_rate_limit_headers headers self).1.2 in
  snapshot !! "rate_limit_limit" = headers !! _RL_HEADER_LIMIT ≫= int_of_str /\
  snapshot !! "rate_limit_remaining" = headers !! _RL_HEADER_REMAINING ≫= int_of_str /\
  snapshot !! "rate_limit_reset" = headers !! _RL_HEADER_RESET ≫= int_of_str /\
  (forall k, k <> "rate_limit_limit" -> k <> "rate_limit_remaining" ->
             k <> "rate_limit_reset" -> snapshot !! k = None).
Proof.
  cbv zeta. unfold _capture_rate_limit_headers, modify. simpl.
  unfold captured_headers. simpl.
  repeat split.
  - rewrite !capture_one_lookup. simpl.
    destruct (headers !! _RL_HEADER_LIMIT ≫= int_of_str); done.
  - rewrite !capture_one_lookup. simpl.
    destruct (headers !! _RL_HEADER_REMAINING ≫= int_of_str); done.
  - rewrite !capture_one_lookup. simpl.
    destruct (headers !! _RL_HEADER_RESET ≫= int_of_str); done.
  - intros k H1 H2 H3. rewrite !capture_one_lookup.
    repeat (destruct (decide _); [congruence |]). done.
Qed.

(** *** The token cache over several calls *)

(** X2: A call that raises has sent one token request, has kept the
    expiry, and never raises the transport's own [ClientError]. It has
    changed the client in one case only: a 200 response with a token
    whose [expires_in] is an integer beyond the range of a float, where
    the new token is already stored when the sum for the expiry raises
    [OverflowError]. *)
Theorem token_failure_state (now : PrimFloat.float) (reply : http_reply)
    (self : EleringEstfeedApiClient) (e : exn) :
  (async_get_access_token now reply self).1.1 = Raise e ->
  let self' := (async_get_access_token now reply self).1.2 in
  (async_get_access_token now reply self).2 =
    [TokenPost (_client_id self) (_client_secret self)] /\
  e <> ClientError /\
  _token_expiry self' = _token_expiry self /\
  (self' = self \/
   exists hdrs body d n,
     reply = Response 200 hdrs body (Some (JDict d)) /\
     truthy (dict_get "access_token" d) = true /\
     py_int (default (JInt 300) (dict_lookup "expires_in" d)) = Ok n /\
     int_overflows n = true /\
     e = OverflowError /\
     self' = set_token (Some (dict_get "access_token" d)) self) /\
  (e <> OverflowError -> self' = self).
Proof.
  intros He. cbv zeta.
  destruct (token_shape now reply self) as (_ & Hraise & _). cbv zeta in Hraise.
  destruct (Hraise e He) as (Htr & Hne & Hexp & Hst).
  split; [exact Htr |]. split; [exact Hne |]. split; [exact Hexp |].
  split; [exact Hst |].
  intros Hno. destruct Hst as [Hst | (hdrs & body & d & n & _ & _ & _ & _ & Ho & _)];
    [exact Hst | contradiction].
Qed.

(** X3: The token a call returns is the one the client holds afterwards, and
    every later call made before the expiry the client then holds
    returns that token without a request and without a change. *)
Theorem token_reused_until_expiry (now : PrimFloat.float) (reply : http_reply)
    (self : EleringEstfeedApiClient) (tok : json) :
  (async_get_access_token now reply self).1.1 = Ok tok ->
  let self' := (async_get_access_token now reply self).1.2 in
  _access_token self' = Some tok /\
  forall (t : PrimFloat.float) (reply' : http_reply),
    (t <? _token_expiry self')%float = true ->
    async_get_access_token t reply' self' = (Ok tok, self', []).
Proof.
  intros Hok. cbv zeta.
  assert (Htok : _access_token (async_get_access_token now reply self).1.2 = Some tok)
    by (by apply (token_shape now reply self)).
  split; [exact Htok |].
  intros t reply' Hlt. by apply token_cached.
Qed.

(** *** What a request does to the client *)

(** X5: A 401 or 403 on a request makes the client forget its token: the
    call raises [EleringAuthError], and the next call for a token goes
    to the token endpoint, whatever the expiry it had. *)
Theorem auth_failure_forgets_token (env : request_env) (method path : string)
    (params : list (string * string)) (self : EleringEstfeedApiClient)
    (status : Z) (headers : gmap string string) (body : string)
    (parsed : option json) :
  api_reply env = Response status headers body parsed ->
  status = 401 \/ status = 403 ->
  let run := _async_request env method path params self in
  request_issued run.2 = true ->
  run.1.1 = Raise EleringAuthError /\
  _access_token run.1.2 = None /\
  forall (now : PrimFloat.float) (reply : http_reply),
    (async_get_access_token now reply run.1.2).2 =
      [TokenPost (_client_id run.1.2) (_client_secret run.1.2)].
Proof.
  intros Hreply Hstatus. cbv zeta.
  pose proof (request_shape env method path params self) as Hs. cbv zeta in Hs.
  pose proof (enforce_sends_nothing (mono_enforce env) self) as (He & _).
  pose proof (token_frame (mono_token env) (token_reply env)
                (_async_enforce_rate_limit (mono_enforce env) self).1.2) as Hf.
  destruct (async_get_access_token _ _ _) as [[r1 s1] t1]. simpl in *.
  destruct Hf as (_ & _ & _ & _ & _ & _ & Hi).
  destruct r1 as [tok | e].
  - rewrite Hreply in Hs. destruct Hs as [_ Hs].
    assert (H4 : status_in_401_403 status = true) by (destruct Hstatus; subst; done).
    rewrite H4 in Hs. intros _.
    change ((_async_request env method path params self).1.1)
      with ((_async_request env method path params self).1).1.
    change ((_async_request env method path params self).1.2)
      with ((_async_request env method path params self).1).2.
    rewrite Hs. simpl. split; [done |]. split; [done |].
    intros now reply.
    destruct (token_shape now reply
                (set_token None
                   (set_rate_limit_headers (captured_headers headers)
                      (set_next_allowed_mono (mono_done env + 5)%float
                         (set_last_request_time (Some (wall_done env)) s1)))))
      as ([Htr | Htr] & _); [| exact Htr].
    exfalso. rewrite token_exchange in Htr by (by left).
    cbv zeta in Htr. repeat case_match; discriminate.
  - rewrite Hs. simpl. rewrite request_issued_app, He, Hi. discriminate.
Qed.

(** X6: After a request that got a response, whatever its status, a call of
    the rate limiter at a time [t] before five seconds have passed since
    the response sleeps until exactly that moment, and a call at or
    after it does not sleep. *)
Theorem requests_spaced (env : request_env) (method path : string)
    (params : list (string * string)) (self : EleringEstfeedApiClient)
    (status : Z) (headers : gmap string string) (body : string)
    (parsed : option json) (t : PrimFloat.float) :
  api_reply env = Response status headers body parsed ->
  let run := _async_request env method path params self in
  request_issued run.2 = true ->
  let next := _async_enforce_rate_limit t run.1.2 in
  ((t <? mono_done env + 5)%float = true ->
     next.2 = [Sleep (mono_done env + 5 - t)%float] /\
     _blocked_count next.1.2 = _blocked_count run.1.2 + 1) /\
  ((t <? mono_done env + 5)%float = false -> next.2 = [] /\ next.1.2 = run.1.2).
Proof.
  intros Hreply. cbv zeta.
  pose proof (request_shape env method path params self) as Hs. cbv zeta in Hs.
  pose proof (enforce_sends_nothing (mono_enforce env) self) as (He & _).
  pose proof (token_frame (mono_token env) (token_reply env)
                (_async_enforce_rate_limit (mono_enforce env) self).1.2) as Hf.
  destruct (async_get_access_token _ _ _) as [[r1 s1] t1]. simpl in *.
  destruct Hf as (_ & _ & _ & _ & _ & _ & Hi).
  destruct r1 as [tok | e].
  - rewrite Hreply in Hs. destruct Hs as [_ Hs]. intros _.
    assert (Hn : _next_allowed_mono
                   (_async_request env method path params self).1.2 =
                 (mono_done env + 5)%float).
    { change ((_async_request env method path params self).1.2)
        with ((_async_request env method path params self).1).2.
      rewrite Hs. repeat case_match; done. }
    rewrite enforce_run, Hn.
    destruct (t <? mono_done env + 5)%float; simpl.
    + split; [done | discriminate].
    + split; [discriminate | done].
  - rewrite Hs. simpl. rewrite request_issued_app, He, Hi. discriminate.
Qed.

(** A call that returns has sent its request. *)
Lemma request_sends_once_helper (env : request_env) (method path : string)
    (params : list (string * string)) (self : EleringEstfeedApiClient) :
  forall data, (_async_request env method path params self).1.1 = Ok data ->
  request_issued (_async_request env method path params self).2 = true.
Proof.
  intros data Hok.
  pose proof (request_shape env method path params self) as Hs. cbv zeta in Hs.
  destruct (async_get_access_token _ _ _) as [[r1 s1] t1]. simpl in *.
  destruct r1 as [tok | e].
  - destruct (api_reply env).
    + rewrite Hs in Hok. discriminate.
    + destruct Hs as [-> _]. rewrite !request_issued_app. simpl.
      by rewrite !orb_true_r.
  - rewrite Hs in Hok. discriminate.
Qed.

(** X7: A call sends at most one token request and at most one API request,
    the API request only after a token was obtained; it never raises
    the transport's [ClientError]; and when no API request was sent it
    raises and leaves the recorded times and headers as they were. *)
Theorem request_sends_at_most_once (env : request_env) (method path : string)
    (params : list (string * string)) (self : EleringEstfeedApiClient) :
  let run := _async_request env method path params self in
  let tk := async_get_access_token (mono_token env) (token_reply env)
              (_async_enforce_rate_limit (mono_enforce env) self).1.2 in
  run.1.1 <> Raise ClientError /\
  (length (List.filter is_token_post run.2) <= 1)%nat /\
  (length (List.filter is_api_request run.2) <= 1)%nat /\
  (request_issued run.2 = true <-> exists tok, tk.1.1 = Ok tok) /\
  (request_issued run.2 = false ->
     (exists e, run.1.1 = Raise e) /\
     _last_request_time run.1.2 = _last_request_time self /\
     _next_allowed_mono run.1.2 = _next_allowed_mono self /\
     _rate_limit_headers run.1.2 = _rate_limit_headers self).
Proof.
  cbv zeta.
  pose proof (request_shape env method path params self) as Hs. cbv zeta in Hs.
  pose proof (enforce_sends_nothing (mono_enforce env) self)
    as (He & Hea & Het & _ & _ & Hn0 & Hl0 & Hh0).
  pose proof (token_frame (mono_token env) (token_reply env)
                (_async_enforce_rate_limit (mono_enforce env) self).1.2) as Hf.
  pose proof (token_shape (mono_token env) (token_reply env)
                (_async_enforce_rate_limit (mono_enforce env) self).1.2) as Hsh.
  cbv zeta in Hsh.
  destruct (async_get_access_token _ _ _) as [[r1 s1] t1]. simpl in *.
  destruct Hf as (_ & Hn & Hl & _ & Hh & _ & Hi).
  destruct Hsh as (Htr & Hraise & _).
  assert (Hta : List.filter is_api_request t1 = [])
    by (destruct Htr as [-> | ->]; done).
  assert (Htt : (length (List.filter is_token_post t1) <= 1)%nat)
    by (destruct Htr as [-> | ->]; simpl; lia).
  destruct r1 as [tok | e].
  - assert (Hrun : (_async_request env method path params self).2 =
                   (_async_enforce_rate_limit (mono_enforce env) self).2 ++ t1 ++
                   [ApiRequest method (_api_host s1 +:+ path) tok params]).
    { destruct (api_reply env); [by rewrite Hs | by destruct Hs as [-> _]]. }
    rewrite Hrun, !request_issued_app, !List.filter_app, !List.length_app.
    rewrite Hea, Het, Hta, He, Hi. simpl.
    split.
    { destruct (api_reply env) as [e0 | status headers body parsed].
      - rewrite Hs. simpl. by destruct e0.
      - destruct Hs as [_ Hs].
        change ((_async_request env method path params self).1.1)
          with ((_async_request env method path params self).1).1.
        rewrite Hs. repeat case_match; done. }
    split; [lia |]. split; [lia |]. split.
    { split; [intros _; by exists tok | done]. }
    discriminate.
  - rewrite Hs. simpl.
    rewrite !request_issued_app, !List.filter_app, !List.length_app.
    rewrite Hea, Het, Hta, He, Hi. simpl.
    destruct (Hraise e eq_refl) as (_ & Hne & _).
    split; [congruence |]. split; [lia |]. split; [lia |]. split.
    { split; [discriminate | intros [tok' Ht]; discriminate]. }
    intros _. split; [eauto |]. by rewrite Hn, Hl, Hh, Hn0, Hl0, Hh0.
Qed.

End ClientMore.

(** * Further properties of the history store *)

Section HistoryMore.
Import History.

(** The points the loop of [_merge] appends: they do not depend on the
    cache but through its keys. *)
Lemma merge_loop_appended (new_points : list Measurement) :
  forall (E : gset string),
  exists (app : list Measurement),
    (forall ms a, merge_loop new_points ms E a =
                  (ms ++ app, list_to_set (map ts_key app) ∪ E,
                   a + Z.of_nat (length app))) /\
    app `sublist_of` new_points /\
    Forall (fun p => str_truthy (ts_key p) = true /\ ts_key p ∉ E) app /\
    NoDup (map ts_key app) /\
    (forall p, p ∈ new_points -> str_truthy (ts_key p) = true ->
               ts_key p ∈ (list_to_set (map ts_key app) ∪ E : gset string)).
Proof.
  induction new_points as [| p rest IH]; intros E.
  - exists []. simpl. repeat split.
    + intros ms a. rewrite app_nil_r. f_equal; [f_equal; set_solver | lia].
    + constructor.
    + constructor.
    + constructor.
    + intros q Hq. by apply elem_of_nil in Hq.
  - simpl. destruct (str_truthy (ts_key p)) eqn:Et; simpl.
    + destruct (bool_decide (ts_key p ∉ E)) eqn:Ed.
      * apply bool_decide_eq_true_1 in Ed.
        destruct (IH ({[ts_key p]} ∪ E)) as (app & Hrun & Hsub & Hall & Hnd & Hin).
        exists (p :: app). repeat split.
        -- intros ms a. rewrite Hrun. rewrite <- app_assoc. simpl.
           f_equal; [f_equal; set_solver | lia].
        -- by constructor.
        -- constructor; [done |].
           eapply Forall_impl; [exact Hall |]. simpl. intros q [Hq1 Hq2].
           split; [done | set_solver].
        -- simpl. constructor; [| done].
           intros Hk. apply list_elem_of_fmap in Hk as (q & Hkq & Hq).
           rewrite Forall_forall in Hall. destruct (Hall q Hq) as [_ Hn].
           apply Hn. rewrite <- Hkq. set_solver.
        -- intros q Hq Hq'. apply elem_of_cons in Hq as [-> | Hq].
           ++ simpl. set_solver.
           ++ specialize (Hin q Hq Hq'). simpl. set_solver.
      * apply bool_decide_eq_false_1 in Ed.
        assert (Hp : ts_key p ∈ E)
          by (destruct (decide (ts_key p ∈ E)); [done | by exfalso; apply Ed]).
        destruct (IH E) as (app & Hrun & Hsub & Hall & Hnd & Hin).
        exists app. repeat split; try done.
        -- by constructor.
        -- intros q Hq Hq'. apply elem_of_cons in Hq as [-> | Hq];
             [set_solver | by apply Hin].
    + destruct (IH E) as (app & Hrun & Hsub & Hall & Hnd & Hin).
      exists app. repeat split; try done.
      * by constructor.
      * intros q Hq Hq'. apply elem_of_cons in Hq as [-> | Hq];
          [congruence | by apply Hin].
Qed.

Lemma str_truthy_nonempty (s : string) : str_truthy s = true <-> s <> "".
Proof.
  unfold str_truthy. rewrite negb_true_iff. apply String.eqb_neq.
Qed.

Lemma merge_only_adds_perm (cache new_points : list Measurement) :
  exists added : list Measurement,
    fst (merge_points cache new_points) ≡ₚ cache ++ added /\
    added `sublist_of` new_points /\
    Forall (fun p => ts_key p <> "" /\ ts_key p ∉ map ts_key cache) added /\
    NoDup (map ts_key added) /\
    snd (merge_points cache new_points) = Z.of_nat (length added).
Proof.
  unfold merge_points.
  destruct (merge_loop_appended new_points (list_to_set (map ts_key cache)))
    as (app & Hrun & Hsub & Hall & Hnd & _).
  rewrite Hrun. simpl. exists app. repeat split; try done.
  - apply sort_by_timestamp_perm.
  - eapply Forall_impl; [exact Hall |]. simpl. intros p [Hp1 Hp2].
    split; [by apply str_truthy_nonempty |].
    intros Hin. apply Hp2. by apply elem_of_list_to_set.
Qed.

(** X8: The merge only adds. The new cache is the old one together with
    some points of the batch, in some order; a point is added only if
    its key is not empty and is not the key of a cached point, so the
    point cached for a timestamp is never replaced; no two added points
    have the same key, and their number is the count the merge logs. *)
Theorem merge_only_adds (self : EleringHistoryStore)
    (new_points : list Measurement) :
  exists added : list Measurement,
    _measurements (_merge self new_points) ≡ₚ _measurements self ++ added /\
    added `sublist_of` new_points /\
    Forall (fun p => ts_key p <> "" /\
                     ts_key p ∉ map ts_key (_measurements self)) added /\
    NoDup (map ts_key added) /\
    merge_added self new_points = Z.of_nat (length added).
Proof.
  apply (merge_only_adds_perm (_measurements self) new_points).
Qed.

(** X9: The keys of the new cache are those of the old one and the non-empty
    keys of the batch; the count the merge logs is the number of
    non-empty keys of the batch that were not cached. *)
Theorem merge_key_set (self : EleringHistoryStore)
    (new_points : list Measurement) :
  let old_keys : gset string := list_to_set (map ts_key (_measurements self)) in
  let new_keys : gset string := list_to_set (map ts_key new_points) ∖ {[""]} in
  list_to_set (map ts_key (_measurements (_merge self new_points))) =
    old_keys ∪ new_keys /\
  merge_added self new_points = Z.of_nat (size (new_keys ∖ old_keys)).
Proof.
  cbv zeta. unfold _merge, merge_added, merge_points. simpl.
  destruct (merge_loop_appended new_points
              (list_to_set (map ts_key (_measurements self))))
    as (app & Hrun & Hsub & Hall & Hnd & Hin).
  rewrite Hrun. simpl.
  assert (Happ : (list_to_set (map ts_key app) : gset string) =
                 (list_to_set (map ts_key new_points) ∖ {[""]}) ∖
                 list_to_set (map ts_key (_measurements self))).
  { apply set_eq. intros k. rewrite !elem_of_difference, !elem_of_list_to_set.
    rewrite elem_of_singleton. split.
    - intros Hk. apply list_elem_of_fmap in Hk as (p & -> & Hp).
      rewrite Forall_forall in Hall. destruct (Hall p Hp) as [Ht Hn].
      repeat split.
      + apply list_elem_of_fmap. exists p. split; [done |].
        by apply (sublist_subseteq _ _ Hsub).
      + by apply str_truthy_nonempty.
      + intros Hc. apply Hn. by apply elem_of_list_to_set.
    - intros [[Hk Hne] Hold].
      apply list_elem_of_fmap in Hk as (p & -> & Hp).
      apply str_truthy_nonempty in Hne.
      specialize (Hin p Hp Hne). apply elem_of_union in Hin as [Hin | Hin].
      + by apply elem_of_list_to_set in Hin.
      + exfalso. apply Hold. by apply elem_of_list_to_set in Hin. }
  split.
  - rewrite sort_by_timestamp_keys, map_app, list_to_set_app_L, Happ.
    apply set_eq. intros k. rewrite !elem_of_union, !elem_of_difference.
    destruct (decide (k ∈ (list_to_set (map ts_key (_measurements self)) : gset string)));
      tauto.
  - rewrite <- Happ. rewrite size_list_to_set by done.
    rewrite length_map. lia.
Qed.


(** Two sorted lists with the same points and no key twice are equal. *)
Lemma sorted_perm_unique_eq (l1 : list Measurement) :
  forall l2, sorted_asc l1 -> sorted_asc l2 -> l1 ≡ₚ l2 -> unique_ts l1 -> l1 = l2.
Proof.
  induction l1 as [| x l1 IH]; intros l2 Hs1 Hs2 Hp Hu.
  - by apply Permutation_nil_l in Hp.
  - destruct l2 as [| y l2]; [by apply Permutation_nil_r in Hp |].
    inversion Hs1 as [| ? ? Hs1' Hall1]; subst.
    inversion Hs2 as [| ? ? Hs2' Hall2]; subst.
    apply NoDup_cons in Hu as [Hx Hu'].
    assert (Hxy : x = y).
    { assert (Hy0 : y ∈ x :: l1) by (rewrite Hp; left).
      apply elem_of_cons in Hy0 as [Hy0 | Hy]; [done |].
      assert (Hx0 : x ∈ y :: l2) by (rewrite <- Hp; left).
      apply elem_of_cons in Hx0 as [Hx0 | Hx2]; [done |]. exfalso.
      rewrite Forall_forall in Hall1, Hall2.
      pose proof (Hall1 y Hy) as Hle1. pose proof (Hall2 x Hx2) as Hle2.
      unfold ts_le in *.
      apply Hx. rewrite (String.leb_antisym _ _ Hle1 Hle2).
      change (ts_key y ∈ ts_key <$> l1).
      apply list_elem_of_fmap. by exists y. }
    subst y. f_equal. apply IH; try done.
    by apply Permutation_cons_inv in Hp.
Qed.

Lemma merge_loop_app (a b : list Measurement) :
  forall (ms : list Measurement) (E : gset string) (n : Z),
  merge_loop (a ++ b) ms E n =
  let '(ms1, E1, n1) := merge_loop a ms E n in merge_loop b ms1 E1 n1.
Proof.
  induction a as [| p a IH]; intros ms E n; simpl; [done |].
  destruct (str_truthy (ts_key p) && bool_decide (ts_key p ∉ E)); apply IH.
Qed.

(** X10: Merging two batches one after the other is merging them at once:
    from a cache with no key twice the cache is the same, and the
    counts of added points add up. *)
Theorem merge_in_two_batches (self : EleringHistoryStore)
    (a b : list Measurement) :
  unique_ts (_measurements self) ->
  _merge (_merge self a) b = _merge self (a ++ b) /\
  merge_added self (a ++ b) =
    merge_added self a + merge_added (_merge self a) b.
Proof.
  intros Hu.
  pose proof (merge_points_unique (_measurements self) (a ++ b) Hu) as Hu2.
  pose proof (merge_points_sorted (_measurements self) (a ++ b)) as Hs2.
  unfold _merge, merge_added, merge_points in *. simpl in *.
  rewrite merge_loop_app in *.
  destruct (merge_loop_appended a (list_to_set (map ts_key (_measurements self))))
    as (appA & HrunA & _).
  rewrite HrunA in *. simpl in *.
  rewrite sort_by_timestamp_keys.
  assert (HE : (list_to_set (map ts_key (_measurements self ++ appA)) : gset string) =
               list_to_set (map ts_key appA) ∪
               list_to_set (map ts_key (_measurements self)))
    by (rewrite map_app, list_to_set_app_L; set_solver).
  rewrite HE.
  destruct (merge_loop_appended b
              (list_to_set (map ts_key appA) ∪
               list_to_set (map ts_key (_measurements self))))
    as (appB & HrunB & _).
  rewrite !HrunB in *. simpl in *.
  split; [| lia].
  f_equal. symmetry.
  apply sorted_perm_unique_eq; try done.
  - apply sort_by_timestamp_sorted.
  - rewrite !sort_by_timestamp_perm. done.
Qed.

(** *** Fetching *)

Section Upstream.
Context {W : Type}.
Variable fetch : W -> string -> datetime -> datetime -> outcome (list Measurement) * W.

(** X11: With [days] zero or negative nothing is requested and nothing
    changes. *)
Theorem fetch_no_days_does_nothing (self : EleringHistoryStore) (days : Z)
    (env : fetch_env) (w : W) (persisted : option StoredDoc) :
  days <= 0 ->
  async_fetch_history fetch self days env w persisted =
  {| fr_outcome := Ok tt; fr_self := self; fr_world := w;
     fr_persisted := persisted; fr_all_new := []; fr_requests := [];
     fr_saves := [] |}.
Proof.
  intros Hd. unfold async_fetch_history. rewrite fetch_loop_fold.
  rewrite chunk_windows_done by (unfold timedelta_days; lia).
  reflexivity.
Qed.

(** X12: A fetch never loses history: whatever the upstream answers and
    whether or not the write to the store fails, every cached point is
    still cached afterwards, the cache keeps its invariant, and the
    only other points in it are fetched ones. *)
Theorem fetch_keeps_cached_points (self : EleringHistoryStore) (days : Z)
    (env : fetch_env) (w : W) (persisted : option StoredDoc) :
  let r := async_fetch_history fetch self days env w persisted in
  (forall p, p ∈ _measurements self -> p ∈ _measurements (fr_self r)) /\
  (forall p, p ∈ _measurements (fr_self r) ->
             p ∈ _measurements self \/ p ∈ fr_all_new r) /\
  (length (_measurements self) <= length (_measurements (fr_self r)))%nat /\
  (cache_inv (_measurements self) -> cache_inv (_measurements (fr_self r))) /\
  _eic (fr_self r) = _eic self.
Proof.
  cbv zeta.
  destruct (async_fetch_history_saves fetch self days env w persisted)
    as [(Ha & _ & _ & Hself & _) | (Ha & Hself & _)].
  - rewrite Hself. repeat split; auto; try lia; by destruct H.
  - rewrite Hself.
    destruct (merge_only_adds_perm (_measurements self)
                (fr_all_new (async_fetch_history fetch self days env w persisted)))
      as (added & Hperm & Hsub & _).
    simpl. split; [| split; [| split; [| split]]].
    + intros p Hp. rewrite Hperm. apply elem_of_app. by left.
    + intros p Hp. rewrite Hperm in Hp. apply elem_of_app in Hp as [Hp | Hp];
        [by left | right; by apply (sublist_subseteq _ _ Hsub)].
    + rewrite Hperm, length_app. lia.
    + intros [Hu Hs]. split; [by apply merge_points_unique | apply merge_points_sorted].
    + done.
Qed.

(** X13: When the write to the store fails, the call raises what the write
    raised; the points fetched are already merged into the cache in
    memory, and the persisted document is the one from before. *)
Theorem save_failure_keeps_merge (self : EleringHistoryStore) (days : Z)
    (env : fetch_env) (w : W) (persisted : option StoredDoc) (e : exn) :
  let r := async_fetch_history fetch self days env w persisted in
  write_error env = Some e ->
  fr_all_new r <> [] ->
  fr_outcome r = Raise e /\
  fr_self r = _merge self (fr_all_new r) /\
  fr_persisted r = persisted.
Proof.
  cbv zeta. intros He Hn.
  destruct (async_fetch_history_saves fetch self days env w persisted)
    as [(Ha & _) | (_ & Hself & _ & Hsave)]; [contradiction |].
  unfold _async_save, store_async_save in Hsave. rewrite He in Hsave.
  injection Hsave as Ho Hp. done.
Qed.

(** X14: After a fetch that got points and whose write did not fail, the
    persisted document gives back the cache: a new store that loads it
    holds the same measurements, and its point count is their number. *)
Theorem fetch_then_reload (self : EleringHistoryStore) (days : Z)
    (env : fetch_env) (w : W) (persisted : option StoredDoc) (eic : string) :
  let r := async_fetch_history fetch self days env w persisted in
  write_error env = None ->
  fr_all_new r <> [] ->
  _measurements (async_load (History.init eic) (fr_persisted r)) =
    _measurements (fr_self r) /\
  _last_fetch (async_load (History.init eic) (fr_persisted r)) =
    Some (now_save env) /\
  (fr_persisted r ≫= doc_point_count) =
    Some (Z.of_nat (length (_measurements (fr_self r)))).
Proof.
  cbv zeta. intros He Hn.
  destruct (async_fetch_history_saves fetch self days env w persisted)
    as [(Ha & _) | (_ & Hself & _ & Hsave)]; [contradiction |].
  unfold _async_save, store_async_save in Hsave. rewrite He in Hsave.
  injection Hsave as Ho Hp. rewrite Hp. done.
Qed.

End Upstream.

End HistoryMore.

(** * The rate-limit snapshot *)

Section InfoClaims.
Import Const Api Endpoints.
Context {builtins : Builtins}.

Lemma captured_headers_dom (headers : gmap string string) :
  dom (captured_headers headers) ⊆ rate_limit_keys.
Proof.
  intros k Hk. apply elem_of_dom in Hk as [n Hn].
  unfold rate_limit_keys.
  destruct (decide (k = "rate_limit_limit")) as [-> | H1]; [set_solver |].
  destruct (decide (k = "rate_limit_remaining")) as [-> | H2]; [set_solver |].
  destruct (decide (k = "rate_limit_reset")) as [-> | H3]; [set_solver |].
  exfalso. unfold captured_headers in Hn. simpl in Hn.
  rewrite !capture_one_lookup in Hn.
  repeat (destruct (decide _) in Hn; [congruence |]). done.
Qed.

Lemma run_call_headers_dom (c : client_call) (self : EleringEstfeedApiClient) :
  dom (_rate_limit_headers self) ⊆ rate_limit_keys ->
  dom (_rate_limit_headers (run_call c self).1.2) ⊆ rate_limit_keys.
Proof.
  intros Hdom.
  destruct c as [now | now reply | env method path params | t]; simpl.
  - pose proof (enforce_sends_nothing now self) as (_ & _ & _ & _ & _ & _ & _ & Hh).
    by rewrite Hh.
  - pose proof (token_frame now reply self) as Hf.
    unfold mbind, M_bind, mret, M_ret.
    destruct (async_get_access_token now reply self) as [[r s] t].
    destruct Hf as (_ & _ & _ & _ & Hh & _).
    destruct r; simpl; by rewrite Hh.
  - pose proof (request_shape env method path params self) as Hs. cbv zeta in Hs.
    pose proof (enforce_sends_nothing (mono_enforce env) self)
      as (_ & _ & _ & _ & _ & _ & _ & Hh0).
    pose proof (token_frame (mono_token env) (token_reply env)
                  (_async_enforce_rate_limit (mono_enforce env) self).1.2) as Hf.
    unfold mbind, M_bind, mret, M_ret.
    destruct (async_get_access_token _ _ _) as [[r1 s1] t1]. simpl in *.
    destruct Hf as (_ & _ & _ & _ & Hh & _).
    assert (Hcase :
      _rate_limit_headers (_async_request env method path params self).1.2 =
        _rate_limit_headers self \/
      exists h, _rate_limit_headers (_async_request env method path params self).1.2 =
                captured_headers h).
    { destruct r1.
      - destruct (api_reply env) as [e | status headers body parsed].
        + left. rewrite Hs. simpl. by rewrite Hh, Hh0.
        + right. exists headers. destruct Hs as [_ Hs].
          change ((_async_request env method path params self).1.2)
            with ((_async_request env method path params self).1).2.
          rewrite Hs. repeat case_match; done.
      - left. rewrite Hs. simpl. by rewrite Hh, Hh0. }
    destruct (_async_request env method path params self) as [[r s] t]. simpl in *.
    destruct Hcase as [Hc | [h Hc]];
      destruct r; simpl; rewrite Hc; auto using captured_headers_dom.
  - done.
Qed.

Lemma run_calls_headers_dom (cs : list client_call) :
  forall self : EleringEstfeedApiClient,
  dom (_rate_limit_headers self) ⊆ rate_limit_keys ->
  dom (_rate_limit_headers (run_calls cs self).1) ⊆ rate_limit_keys.
Proof.
  induction cs as [| c cs IH]; intros self Hdom; simpl; [done |].
  pose proof (run_call_headers_dom c self Hdom) as Hc.
  destruct (run_call c self) as [[r s] t]. simpl in Hc.
  specialize (IH s Hc). destruct (run_calls cs s) as [s' t']. done.
Qed.

(** X15: For a client built by [__init__] and used through its methods in
    any order, the snapshot tells the truth: its count of blocked
    requests is the number of sleeps made so far; its next allowed time
    is [None] exactly when a call of the rate limiter at that instant
    would not sleep, and otherwise lies the length of that sleep ahead;
    the header values are those captured from the last response; and it
    has no other key than the three fixed ones and those three. *)
Theorem rate_limit_info_reports_state (cs : list client_call)
    (api_host client_id client_secret : string) (now_mono : PrimFloat.float)
    (now_wall : datetime) :
  let run := run_calls cs (Api.init api_host client_id client_secret) in
  let info := rate_limit_info now_mono now_wall run.1 in
  info !! "blocked_requests_count" = Some (IInt (waits run.2)) /\
  info !! "last_request_time" =
    Some (match _last_request_time run.1 with
          | Some t => ITime t
          | None => INone
          end) /\
  info !! "next_allowed_time" =
    Some (match (_async_enforce_rate_limit now_mono run.1).2 with
          | [Sleep wait] => ITimeAfter now_wall wait
          | _ => INone
          end) /\
  (forall k, k ∈ rate_limit_keys ->
             info !! k = IInt <$> (_rate_limit_headers run.1 !! k)) /\
  dom info ⊆ base_keys ∪ rate_limit_keys.
Proof.
  cbv zeta.
  pose proof (run_calls_headers_dom cs (Api.init api_host client_id client_secret))
    as Hdom.
  pose proof (run_calls_blocked_count cs (Api.init api_host client_id client_secret))
    as Hb.
  set (self := (run_calls cs (Api.init api_host client_id client_secret)).1) in *.
  simpl in Hb. rewrite Z.add_0_l in Hb.
  assert (Hd : dom (_rate_limit_headers self) ⊆ rate_limit_keys)
    by (apply Hdom; simpl; set_solver).
  assert (Hbase : forall k, k ∈ base_keys -> _rate_limit_headers self !! k = None).
  { intros k Hk. apply not_elem_of_dom. intros Hin. apply Hd in Hin.
    unfold base_keys, rate_limit_keys in *. set_solver. }
  unfold rate_limit_info. rewrite enforce_run.
  destruct (now_mono <? _next_allowed_mono self)%float; simpl.
  - repeat split.
    + rewrite lookup_union_r by (rewrite lookup_fmap, Hbase; [done | set_solver]).
      rewrite <- Hb. by simplify_map_eq.
    + rewrite lookup_union_r by (rewrite lookup_fmap, Hbase; [done | set_solver]).
      by simplify_map_eq.
    + rewrite lookup_union_r by (rewrite lookup_fmap, Hbase; [done | set_solver]).
      by simplify_map_eq.
    + intros k Hk. rewrite lookup_union, lookup_fmap.
      assert (Hn : (<["next_allowed_time":=ITimeAfter now_wall
                        (_next_allowed_mono self - now_mono)]>
                     ({["last_request_time" :=
                          match _last_request_time self with
                          | Some t => ITime t
                          | None => INone
                          end;
                        "blocked_requests_count" := IInt (_blocked_count self)]}
                      : gmap string info_value)) !! k = None).
      { unfold rate_limit_keys in Hk.
        apply elem_of_union in Hk as [Hk | Hk%elem_of_singleton];
          [apply elem_of_union in Hk as [Hk%elem_of_singleton | Hk%elem_of_singleton] |];
          subst k; by simplify_map_eq. }
      rewrite Hn. by destruct (_rate_limit_headers self !! k).
    + rewrite dom_union, dom_fmap, dom_insert, dom_insert, dom_singleton.
      unfold base_keys. set_solver.
  - repeat split.
    + rewrite lookup_union_r by (rewrite lookup_fmap, Hbase; [done | set_solver]).
      rewrite <- Hb. by simplify_map_eq.
    + rewrite lookup_union_r by (rewrite lookup_fmap, Hbase; [done | set_solver]).
      by simplify_map_eq.
    + rewrite lookup_union_r by (rewrite lookup_fmap, Hbase; [done | set_solver]).
      by simplify_map_eq.
    + intros k Hk. rewrite lookup_union, lookup_fmap.
      assert (Hn : (<["next_allowed_time":=INone]>
                     ({["last_request_time" :=
                          match _last_request_time self with
                          | Some t => ITime t
                          | None => INone
                          end;
                        "blocked_requests_count" := IInt (_blocked_count self)]}
                      : gmap string info_value)) !! k = None).
      { unfold rate_limit_keys in Hk.
        apply elem_of_union in Hk as [Hk | Hk%elem_of_singleton];
          [apply elem_of_union in Hk as [Hk%elem_of_singleton | Hk%elem_of_singleton] |];
          subst k; by simplify_map_eq. }
      rewrite Hn. by destruct (_rate_limit_headers self !! k).
    + rewrite dom_union, dom_fmap, dom_insert, dom_insert, dom_singleton.
      unfold base_keys. set_solver.
Qed.

End InfoClaims.

(** * The config flow *)

Section FlowClaims.
Import Const Api Endpoints ConfigFlow.

(** [rstrip("/")] takes away the slashes at the end and nothing else. *)
Lemma rstrip_slash_facts (s : string) :
  (exists n, s = String.append (rstrip_slash s) (slashes n)) /\
  (forall r, rstrip_slash s <> String.append r "/") /\
  rstrip_slash (rstrip_slash s) = rstrip_slash s.
Proof.
  assert (Hstep : forall c s',
            rstrip_slash (String c s') =
            match rstrip_slash s' with
            | EmptyString =>
                if Ascii.eqb c (Ascii.Ascii true true true true false true false false)
                then EmptyString else String c EmptyString
            | r => String c r
            end).
  { intros c s'. simpl. destruct (rstrip_slash s'); [| done].
    by destruct (Ascii.eqb c _). }
  assert (H1 : exists n, s = String.append (rstrip_slash s) (slashes n)).
  { induction s as [| c s [n IH]]; [by exists 0%nat |]. rewrite Hstep.
    destruct (rstrip_slash s) as [| c' r] eqn:Er.
    - destruct (Ascii.eqb c _) eqn:Ec.
      + apply Ascii.eqb_eq in Ec. subst c.
        exists (S n). rewrite IH at 1. reflexivity.
      + exists n. rewrite IH at 1. reflexivity.
    - exists n. rewrite IH at 1. reflexivity. }
  assert (H2 : forall t r, rstrip_slash t <> String.append r "/").
  { clear. intros t. induction t as [| c t IH]; intros r.
    - destruct r; discriminate.
    - simpl. destruct (rstrip_slash t) as [| c' r'] eqn:Er.
      + destruct (Ascii.eqb c _) eqn:Ec; simpl.
        * destruct r; discriminate.
        * apply Ascii.eqb_neq in Ec. destruct r as [| a r].
          -- intros Heq. injection Heq as Heq. congruence.
          -- intros Heq. injection Heq as _ Heq. destruct r; discriminate.
      + destruct r as [| a r].
        * discriminate.
        * intros Heq. injection Heq as _ Heq. by apply (IH r). }
  split; [exact H1 |]. split; [apply H2 |].
  clear H1. induction s as [| c s IH]; [done |]. rewrite Hstep.
  destruct (rstrip_slash s) as [| c' r'] eqn:Er.
  - destruct (Ascii.eqb c _) eqn:Ec; [done |]. rewrite Hstep. simpl. by rewrite Ec.
  - rewrite Hstep, IH. reflexivity.
Qed.

(** X16: A client keeps its host without the slashes at the end, and takes
    away nothing else: the host given is the host kept followed by
    slashes only, the host kept does not end with a slash, and a client
    built from the host kept is the same client. *)
Theorem client_host_stripped (api_host client_id client_secret : string) :
  let kept := _api_host (new_client api_host client_id client_secret) in
  (exists n, api_host = String.append kept (slashes n)) /\
  (forall r, kept <> String.append r "/") /\
  new_client kept client_id client_secret =
    new_client api_host client_id client_secret.
Proof.
  cbv zeta. unfold new_client. cbn [_api_host Api.init].
  destruct (rstrip_slash_facts api_host) as (H1 & H2 & H3).
  split; [exact H1 |]. split; [exact H2 |]. by rewrite H3.
Qed.

Section Flow.
Context {builtins : Builtins}.
Variable strftime : datetime -> string.

Ltac unfold_m :=
  unfold mbind, mret, mthrow, M_bind, M_ret, M_throw, get_self, modify, emit,
    try_except, lift_outcome, reraise_client_error in *.

Ltac m_simpl :=
  cbn -[Z.eqb Z.add PrimFloat.ltb PrimFloat.add PrimFloat.sub float_add_int
        float_sub_int float_of_int int_overflows truthy dict_get dict_lookup
        py_int status_in_401_403 captured_headers TOKEN_EXPIRY_MARGIN
        RATE_LIMIT_SECONDS].

Ltac m_step :=
  match goal with
  | |- context [match ?x with _ => _ end] =>
      lazymatch x with
      | context [match _ with _ => _ end] => fail
      | _ => destruct x eqn:?
      end
  end.

Ltac m_cases := repeat (m_step; m_simpl; try done).

Lemma validate_run (now : PrimFloat.float) (reply : http_reply)
    (self : EleringEstfeedApiClient) :
  _async_validate_credentials now reply self =
  match async_get_access_token now reply self with
  | (Ok _, s, t) => (Ok None, s, t)
  | (Raise e, s, t) => (Ok (Some (error_key e)), s, t)
  end.
Proof.
  unfold _async_validate_credentials. unfold_m.
  destruct (async_get_access_token now reply self) as [[[tok | e] s] t]; simpl;
    by rewrite ?app_nil_r.
Qed.

(** What [int] raises is none of the errors of api.py. *)
Lemma py_int_error_key (j : json) (e : exn) :
  py_int j = Raise e -> error_key e = "unknown".
Proof.
  unfold py_int, int_of_float. intros Hp.
  repeat case_match; first [discriminate Hp | injection Hp as <-]; done.
Qed.

(** X17: The validation of the credentials of a new client never raises and
    sends one token request. Its answer follows the reply of the token
    endpoint: no error exactly when the exchange gives a token;
    [cannot_connect] when the endpoint is not reached; [invalid_auth]
    for a 401 or 403 and for a 200 without a token; [unknown] in every
    other case, a timeout of the session among them. *)
Theorem validate_credentials_by_reply (api_host client_id client_secret : string)
    (now : PrimFloat.float) (reply : http_reply) :
  let client := new_client api_host client_id client_secret in
  let run := _async_validate_credentials now reply client in
  let exchange := async_get_access_token now reply client in
  run.2 = [TokenPost client_id client_secret] /\
  run.1.2 = exchange.1.2 /\
  exists key,
    run.1.1 = Ok key /\
    (key = None <-> exists tok, exchange.1.1 = Ok tok) /\
    match reply with
    | Fails ClientError => key = Some "cannot_connect"
    | Fails e => key = Some (error_key e)
    | Response status _ _ parsed =>
        if status_in_401_403 status then key = Some "invalid_auth"
        else if negb (status =? 200) then key = Some "unknown"
        else match parsed with
             | Some (JDict d) =>
                 if truthy (dict_get "access_token" d) then
                   key = None \/ key = Some "unknown"
                 else key = Some "invalid_auth"
             | _ => key = Some "unknown"
             end
    end.
Proof.
  cbv zeta. rewrite validate_run.
  assert (Hc : _access_token (new_client api_host client_id client_secret) = None \/
               (now <? _token_expiry (new_client api_host client_id client_secret))%float
               = false) by (by left).
  rewrite (token_exchange now reply _ Hc). cbv zeta.
  change (_client_id (new_client api_host client_id client_secret)) with client_id.
  change (_client_secret (new_client api_host client_id client_secret))
    with client_secret.
  destruct reply as [e | status hdrs body parsed]; simpl.
  { split; [done |]. split; [done |]. eexists. split; [reflexivity |].
    split; [split; [discriminate | intros [? ?]; by destruct e] |].
    by destruct e. }
  destruct (status_in_401_403 status); simpl.
  { split; [done |]. split; [done |]. eexists. split; [reflexivity |].
    split; [split; [discriminate | intros [? ?]; discriminate] | done]. }
  destruct (negb (status =? 200)); simpl.
  { split; [done |]. split; [done |]. eexists. split; [reflexivity |].
    split; [split; [discriminate | intros [? ?]; discriminate] | done]. }
  destruct parsed as [[| | | | | | d] |]; simpl;
    try (split; [done |]; split; [done |]; eexists; split; [reflexivity |];
         split; [split; [discriminate | intros [? ?]; discriminate] | done]).
  destruct (truthy (dict_get "access_token" d)); simpl;
    [| split; [done |]; split; [done |]; eexists; split; [reflexivity |];
       split; [split; [discriminate | intros [? ?]; discriminate] | done]].
  destruct (py_int _) as [n | e1] eqn:Ep; simpl.
  - destruct (int_overflows n); simpl.
    + split; [done |]. split; [done |]. eexists. split; [reflexivity |].
      split; [split; [discriminate | intros [? ?]; discriminate] | by right].
    + split; [done |]. split; [done |]. eexists. split; [reflexivity |].
      split; [split; [eauto | done] | by left].
  - split; [done |]. split; [done |]. eexists. split; [reflexivity |].
    split; [split; [discriminate | intros [? ?]; discriminate] |].
    right. by rewrite (py_int_error_key _ _ Ep).
Qed.

Lemma fetch_points_run (env : request_env) (now : datetime) (old : json)
    (self : EleringEstfeedApiClient) :
  _async_fetch_metering_points strftime env now old self =
  match _async_request env "GET" METERING_POINTS_PATH
          [("startDateTime", strftime now); ("endDateTime", strftime now)] self with
  | (Ok data, s, t) =>
      if has_len (unwrap_points data) then
        (Ok (if truthy (unwrap_points data) then None
             else Some "no_metering_points", unwrap_points data), s, t)
      else (Ok (Some "unknown", old), s, t)
  | (Raise e, s, t) => (Ok (Some (error_key e), old), s, t)
  end.
Proof.
  unfold _async_fetch_metering_points, async_get_metering_points, _format_dt.
  unfold_m.
  destruct (_async_request env "GET" METERING_POINTS_PATH _ self)
    as [[[data | e] s] t]; simpl.
  - destruct (has_len (unwrap_points data)); simpl; by rewrite ?app_nil_r.
  - by rewrite ?app_nil_r.
Qed.

(** X18: The fetch of the metering points in the flow never raises. It makes
    the one request; the points it keeps are those of the response,
    unwrapped, and the flow's list is left as it was when the request
    fails; the error key is none only for a non-empty value, and
    [no_metering_points] for an empty one. *)
Theorem fetch_metering_points_key (env : request_env) (now : datetime)
    (old : json) (self : EleringEstfeedApiClient) :
  let req := _async_request env "GET" METERING_POINTS_PATH
               [("startDateTime", strftime now); ("endDateTime", strftime now)]
               self in
  let run := _async_fetch_metering_points strftime env now old self in
  run.1.2 = req.1.2 /\ run.2 = req.2 /\
  exists key points,
    run.1.1 = Ok (key, points) /\
    (key = None -> truthy points = true /\ exists data, req.1.1 = Ok data) /\
    match req.1.1 with
    | Raise e => key = Some (error_key e) /\ points = old
    | Ok (JList l) =>
        points = JList l /\
        key = match l with [] => Some "no_metering_points" | _ => None end
    | Ok (JDict d) =>
        (key = Some "unknown" /\ points = old) \/
        (points = unwrap_points (JDict d) /\
         key = if truthy points then None else Some "no_metering_points")
    | Ok _ => points = JList [] /\ key = Some "no_metering_points"
    end.
Proof.
  cbv zeta. rewrite fetch_points_run.
  destruct (_async_request env "GET" METERING_POINTS_PATH _ self)
    as [[[data | e] s] t]; simpl.
  - destruct (has_len (unwrap_points data)) eqn:Hl; simpl.
    + split; [done |]. split; [done |]. eexists _, _. split; [reflexivity |].
      split.
      { destruct (truthy (unwrap_points data)) eqn:Ht; [eauto | discriminate]. }
      destruct data as [| | | | | l | d]; simpl; try done.
      * by destruct l.
      * by right.
    + split; [done |]. split; [done |]. eexists _, _. split; [reflexivity |].
      split; [discriminate |].
      destruct data as [| | | | | l | d]; simpl in *; try done. by left.
  - split; [done |]. split; [done |]. eexists _, _. split; [reflexivity |].
    split; [discriminate | done].
Qed.

(** The loop of the selection form raises [AttributeError] or
    [TypeError] only, and goes through only when every point is a dict. *)
Lemma option_keys_raise (points : list json) (e : exn) :
  option_keys points = Raise e -> e = AttributeError \/ e = TypeError.
Proof.
  induction points as [| point rest IH]; simpl; [discriminate |].
  destruct (option_key point) as [key | e1] eqn:Ek.
  - destruct (option_keys rest) as [keys | e2]; [discriminate |].
    intros [= <-]. by apply IH.
  - intros [= <-]. unfold option_key in Ek.
    repeat case_match; first [discriminate Ek | injection Ek as <-]; auto.
Qed.

Lemma option_keys_ok (points keys : list json) :
  option_keys points = Ok keys ->
  Forall (fun point => is_dict point = true) points /\ length keys = length points.
Proof.
  revert keys. induction points as [| point rest IH]; intros keys; simpl.
  - intros [= <-]. by split.
  - destruct (option_key point) as [key | e1] eqn:Ek; [| discriminate].
    destruct (option_keys rest) as [keys' | e2]; [| discriminate].
    intros [= <-]. destruct (IH keys' eq_refl) as [Hd Hl].
    split; [| simpl; by rewrite Hl].
    constructor; [| exact Hd]. by destruct point.
Qed.

Lemma select_eic_ok (points : json) (keys : list json) :
  has_len points = true -> truthy points = true ->
  async_step_select_eic points = Ok keys ->
  exists l, points = JList l /\
            Forall (fun point => is_dict point = true) l /\
            length keys = length l.
Proof.
  unfold async_step_select_eic. intros Hl Ht Hok.
  destruct points as [| | | | s | l | d]; try discriminate.
  - destruct s as [| c s']; [discriminate |]. discriminate.
  - exists l. split; [done |]. by apply option_keys_ok.
  - destruct d as [| [k v] d']; [discriminate |]. discriminate.
Qed.

(** X19: When the exchange of the credentials fails, the form is shown
    again with the error of that failure and nothing was sent but the
    token request: the metering points are not asked for. The flow goes
    on to the form of the selection only with a token and a non-empty
    list of points, all of them dicts, that an API request brought. The
    only exceptions that get out are those of the loop that builds the
    form of the selection from such points: [AttributeError] and
    [TypeError]. *)
Theorem step_user_gates_on_credentials (api_host client_id client_secret : string)
    (validate_now : PrimFloat.float) (validate_reply : http_reply)
    (env : request_env) (now : datetime) :
  let out := async_step_user strftime api_host client_id client_secret
               validate_now validate_reply env now in
  let exchange := async_get_access_token validate_now validate_reply
                    (new_client api_host client_id client_secret) in
  (forall e, exchange.1.1 = Raise e ->
     out = (ShowForm (error_key e), [TokenPost client_id client_secret])) /\
  (forall client points keys,
     out.1 = SelectEic client points keys ->
     request_issued out.2 = true /\
     (exists tok, exchange.1.1 = Ok tok) /\
     async_step_select_eic points = Ok keys /\
     exists l, points = JList l /\ l <> [] /\
               Forall (fun point => is_dict point = true) l /\
               length keys = length l) /\
  (forall e, out.1 = Propagates e ->
     (e = AttributeError \/ e = TypeError) /\
     request_issued out.2 = true /\
     (exists tok, exchange.1.1 = Ok tok) /\
     exists points, truthy points = true /\
                    async_step_select_eic points = Raise e).
Proof.
  cbv zeta. unfold async_step_user. rewrite validate_run.
  pose proof (token_shape validate_now validate_reply
                (new_client api_host client_id client_secret)) as Hsh.
  cbv zeta in Hsh.
  destruct (async_get_access_token validate_now validate_reply _)
    as [[[tok | e] s] t]; simpl in *.
  - rewrite fetch_points_run.
    pose proof (request_sends_once_helper env "GET" METERING_POINTS_PATH
                  [("startDateTime", strftime now); ("endDateTime", strftime now)] s)
      as Hreq.
    destruct (_async_request env "GET" METERING_POINTS_PATH _ s)
      as [[[data | e] s'] t']; simpl in *.
    + destruct (has_len (unwrap_points data)) eqn:Hl; simpl.
      * destruct (truthy (unwrap_points data)) eqn:Ht; simpl.
        -- assert (Hiss : request_issued (t ++ t') = true).
           { rewrite request_issued_app, (Hreq data eq_refl). apply orb_true_r. }
           destruct (async_step_select_eic (unwrap_points data))
             as [keys | e] eqn:Es; simpl.
           ++ split; [discriminate |]. split; [| discriminate].
              intros client points keys' [= <- <- <-].
              split; [done |]. split; [eauto |]. split; [done |].
              destruct (select_eic_ok _ _ Hl Ht Es) as (l & Hp & Hd & Hn).
              exists l. split; [done |]. split; [| done].
              intros ->. rewrite Hp in Ht. discriminate.
           ++ split; [discriminate |]. split; [discriminate |].
              intros e' [= <-]. split; [by apply (option_keys_raise _ _ Es) |].
              split; [done |]. split; [eauto |]. eauto.
        -- split; [discriminate |]. split; discriminate.
      * split; [discriminate |]. split; discriminate.
    + split; [discriminate |]. split; discriminate.
  - destruct Hsh as (_ & Hraise & _).
    destruct (Hraise e eq_refl) as (-> & _).
    split; [| split; discriminate].
    by intros e' [= <-].
Qed.

End Flow.

End FlowClaims.

(** * The two endpoints and the coordinator *)

Section GenericSort.
Context {A : Type} (key : A -> string).
Import Endpoints.

Lemma sort_insert_by_perm (x : A) (l : list A) : sort_insert_by key x l ≡ₚ x :: l.
Proof.
  induction l as [| y l IH]; simpl; [done |].
  destruct (String.ltb (key y) (key x)); [| done].
  rewrite IH. apply Permutation_swap.
Qed.

Lemma sort_by_perm (l : list A) : sort_by key l ≡ₚ l.
Proof.
  induction l as [| x l IH]; simpl; [done |].
  by rewrite sort_insert_by_perm, IH.
Qed.

Lemma sort_insert_by_sorted (x : A) (l : list A) :
  StronglySorted (key_le key) l -> StronglySorted (key_le key) (sort_insert_by key x l).
Proof.
  induction 1 as [| y l Hs IH Hall]; simpl.
  - repeat constructor.
  - destruct (String.ltb (key y) (key x)) eqn:E.
    + constructor; [exact IH |].
      rewrite sort_insert_by_perm. constructor; [| exact Hall].
      by apply str_ltb_leb.
    + apply str_ltb_false_leb in E.
      constructor; [by constructor |].
      constructor; [exact E |].
      eapply Forall_impl; [exact Hall |].
      intros z Hz. unfold key_le in *. by apply (str_leb_trans _ (key y)).
Qed.

Lemma sort_by_sorted (l : list A) : StronglySorted (key_le key) (sort_by key l).
Proof.
  induction l as [| x l IH]; simpl; [constructor | by apply sort_insert_by_sorted].
Qed.

(** The last entry of a sorted list is above all the others. *)
Lemma sorted_last_max (l : list A) (d : A) :
  StronglySorted (key_le key) l -> l <> [] ->
  List.last l d ∈ l /\ forall q, q ∈ l -> key_le key q (List.last l d).
Proof.
  induction 1 as [| x l Hs IH Hall]; intros Hne; [done |].
  destruct l as [| y l'].
  - simpl. split; [left |]. intros q Hq. apply list_elem_of_singleton in Hq as ->.
    unfold key_le, String.leb. by rewrite str_compare_refl.
  - destruct (IH ltac:(done)) as [Hin Hmax].
    change (List.last (x :: y :: l') d) with (List.last (y :: l') d).
    split; [by right |].
    intros q Hq. apply elem_of_cons in Hq as [-> | Hq]; [| by apply Hmax].
    rewrite Forall_forall in Hall. by apply Hall.
Qed.

End GenericSort.

Section EndpointClaims.
Import Const Api Endpoints Coordinator.
Context {builtins : Builtins}.
Variable strftime : datetime -> string.
Variable sort_other_keys : list json -> outcome (list json).

Lemma lift_outcome_run {A : Type} (o : outcome A) (s : EleringEstfeedApiClient) :
  lift_outcome o s = (o, s, []).
Proof. destruct o; reflexivity. Qed.

Lemma sort_measurements_strings (l : list json) :
  forallb is_dict l = true ->
  forallb (fun m => is_str (timestamp_of m)) l = true ->
  exists l', sort_measurements sort_other_keys (JList l) = Ok l' /\
             l' ≡ₚ l /\ sorted_by_ts l'.
Proof.
  intros Hd Hs. unfold sort_measurements. rewrite Hd.
  destruct (Z.of_nat (length l) <=? 1) eqn:Hlen.
  - exists l. repeat split; [done |].
    apply Z.leb_le in Hlen. destruct l as [| x [| y l]]; simpl in Hlen; try lia.
    + constructor.
    + repeat constructor.
  - rewrite Hs. exists (sort_by ts_string l). repeat split.
    + apply sort_by_perm.
    + apply sort_by_sorted.
Qed.

Lemma metering_data_run (env : request_env) (eic : string)
    (start end_ : datetime) (resolution : string)
    (self : EleringEstfeedApiClient) :
  async_get_metering_data strftime sort_other_keys env eic start end_
    resolution self =
  match _async_request env "GET" METERING_DATA_PATH
          [("startDateTime", strftime start); ("endDateTime", strftime end_);
           ("resolution", resolution); ("meteringPointEics", eic)] self with
  | (Ok data, s, t) =>
      (sort_measurements sort_other_keys (_extract_measurements data eic), s, t)
  | (Raise e, s, t) => (Raise e, s, t)
  end.
Proof.
  unfold async_get_metering_data, _format_dt. unfold mbind, M_bind.
  destruct (_async_request env "GET" METERING_DATA_PATH _ self) as [[r s] t].
  destruct r as [data | e]; [| reflexivity].
  rewrite lift_outcome_run. simpl. by rewrite app_nil_r.
Qed.

(** X20: [async_get_metering_data] makes the one request and changes the
    client as the request does. An error of the request is its error.
    Of a response whose measurements are dicts with a string (or no)
    timestamp it returns those measurements, all of them, ascending by
    timestamp; a measurements value that is not a list, or has an entry
    that is not a dict, makes it raise [AttributeError]. *)
Theorem metering_data_sorted (env : request_env) (eic : string)
    (start end_ : datetime) (resolution : string)
    (self : EleringEstfeedApiClient) :
  let params := [("startDateTime", strftime start);
                 ("endDateTime", strftime end_);
                 ("resolution", resolution);
                 ("meteringPointEics", eic)] in
  let req := _async_request env "GET" METERING_DATA_PATH params self in
  let run := async_get_metering_data strftime sort_other_keys env eic start end_
               resolution self in
  run.1.2 = req.1.2 /\ run.2 = req.2 /\
  (forall e, req.1.1 = Raise e -> run.1.1 = Raise e) /\
  (forall data, req.1.1 = Ok data ->
     match _extract_measurements data eic with
     | JList l =>
         if forallb is_dict l then
           forallb (fun m => is_str (timestamp_of m)) l = true ->
           exists l', run.1.1 = Ok l' /\ l' ≡ₚ l /\ sorted_by_ts l'
         else run.1.1 = Raise AttributeError
     | _ => run.1.1 = Raise AttributeError
     end).
Proof.
  cbv zeta. rewrite metering_data_run.
  destruct (_async_request env "GET" METERING_DATA_PATH _ self) as [[r s] t].
  destruct r as [data | e]; simpl.
  - split; [done |]. split; [done |]. split; [discriminate |].
    intros data' [= <-].
    destruct (_extract_measurements data eic) as [| | | | | l |]; try done.
    destruct (forallb is_dict l) eqn:Hd.
    + intros Hs. by apply sort_measurements_strings.
    + unfold sort_measurements. by rewrite Hd.
  - split; [done |]. split; [done |]. split; [| discriminate].
    by intros e' [= <-].
Qed.

(** X21: The coordinator hands on the latest measurement. An error of the
    client becomes [UpdateFailed]. Of a response whose measurements are
    dicts with a string (or no) timestamp it returns one of them whose
    timestamp is not below any other, and the empty dict when there is
    none. *)
Theorem coordinator_returns_latest (env : request_env) (eic resolution : string)
    (now : datetime) (client : EleringEstfeedApiClient) :
  let params := [("startDateTime", strftime (now - timedelta_hours DEFAULT_DATA_WINDOW_HOURS));
                 ("endDateTime", strftime now);
                 ("resolution", resolution);
                 ("meteringPointEics", eic)] in
  let req := _async_request env "GET" METERING_DATA_PATH params client in
  let run := _async_update_data strftime sort_other_keys env eic resolution now
               client in
  run.1.2 = req.1.2 /\ run.2 = req.2 /\
  (forall e, req.1.1 = Raise e -> run.1.1 = UpdateFailed e) /\
  (forall data l,
     req.1.1 = Ok data -> _extract_measurements data eic = JList l ->
     forallb is_dict l = true ->
     forallb (fun m => is_str (timestamp_of m)) l = true ->
     (l = [] -> run.1.1 = Latest (JDict [])) /\
     (l <> [] ->
      exists point, run.1.1 = Latest point /\ point ∈ l /\
        forall q, q ∈ l -> String.leb (ts_string q) (ts_string point) = true)).
Proof.
  cbv zeta. unfold _async_update_data. rewrite metering_data_run.
  destruct (_async_request env "GET" METERING_DATA_PATH _ client) as [[r0 s0] t0].
  destruct r0 as [data | e]; simpl.
  - split.
    { destruct (sort_measurements _ _) as [ms | e0]; [| done].
      by destruct (truthy _ && _). }
    split.
    { destruct (sort_measurements _ _) as [ms | e0]; [| done].
      by destruct (truthy _ && _). }
    split; [discriminate |].
    intros data' l [= <-] Hex Hd Hstr. rewrite Hex.
    destruct (sort_measurements_strings l Hd Hstr) as (l' & -> & Hperm & Hsorted).
    split.
    + intros ->. apply Permutation_nil_r in Hperm. subst l'. done.
    + intros Hne.
      assert (Hne' : l' <> []) by (intros ->; by apply Permutation_nil_l in Hperm).
      destruct (sorted_last_max ts_string l' JNull Hsorted Hne') as [Hin Hmax].
      assert (Hdict : is_dict (List.last l' JNull) = true).
      { rewrite forallb_forall in Hd. apply Hd. apply list_elem_of_In.
        by rewrite <- Hperm. }
      exists (List.last l' JNull). destruct l' as [| x l'']; [done |].
      rewrite Hdict, andb_false_r. split; [done |]. split; [by rewrite <- Hperm |].
      intros q Hq. apply Hmax. by rewrite Hperm.
  - split; [done |]. split; [done |].
    split; [by intros e' [= <-] | discriminate].
Qed.

End EndpointClaims.

(** * The setup of an entry *)

Section SetupClaims.
Import Setup.


End SetupClaims.

(** * Floats and integers

    The conversions between [int] and [float], on values computed with
    Python: [float(2**53 + 1)], [float(2**53 + 3)], the first integer
    that is too large, [int(3600.7)], [int(-2.5)], [int(1e-320)],
    [int(float("inf"))] and [int(float("nan"))]. *)

Section FloatSamples.

Example float_of_int_samples :
  float_of_int (2 ^ 53 + 1) = 9007199254740992%float /\
  float_of_int (2 ^ 53 + 3) = 9007199254740996%float /\
  int_overflows (2 ^ 1024 - 2 ^ 970 - 1) = false /\
  int_overflows (2 ^ 1024 - 2 ^ 970) = true /\
  int_overflows (- (2 ^ 1024 - 2 ^ 970)) = true /\
  float_add_int 0.5 (10 ^ 400) = Raise OverflowError /\
  float_add_int 0.1 30 = Ok 30.1%float.
Proof. vm_compute. repeat split. Qed.

Example int_of_float_samples :
  int_of_float 3600.7 = Ok 3600 /\
  int_of_float (-2.5) = Ok (-2) /\
  int_of_float 1e-320 = Ok 0 /\
  int_of_float 123456789.5 = Ok 123456789 /\
  int_of_float PrimFloat.infinity = Raise OverflowError /\
  int_of_float PrimFloat.nan = Raise ValueError.
Proof. vm_compute. repeat split. Qed.

End FloatSamples.

(** * The properties above on the sample data *)

Section MoreSamples.
Import Const History Api Endpoints Coordinator ConfigFlow Samples Fixtures.

Example strftime_utc_samples :
  strftime_utc (20100 * day) = "2025-01-12T00:00:00+0000" /\
  strftime_utc (20100 * day - timedelta_hours 2) = "2025-01-11T22:00:00+0000" /\
  strftime_utc ((951782400 + 86399) * 1000000) = "2000-02-29T23:59:59+0000" /\
  strftime_utc 0 = "1970-01-01T00:00:00+0000" /\
  strftime_utc ((4102444800 - 1) * 1000000) = "2099-12-31T23:59:59+0000".
Proof. vm_compute. repeat split. Qed.

(** An unreachable token endpoint leaves the stale token where it was;
    a token with an [expires_in] beyond the range of a float is stored
    before the call raises. *)
Lemma token_failure_state_witness :
  let stale := async_get_access_token (builtins := decimal) 4000 (Fails ClientError)
                 client_cached in
  let huge := async_get_access_token (builtins := decimal) 10 token_huge client0 in
  (stale.1.1 = Raise EleringConnectionError /\ stale.1.2 = client_cached) /\
  (huge.1.1 = Raise OverflowError /\
   huge.1.2 = set_token (Some (JStr "tok-4")) client0 /\
   _token_expiry huge.1.2 = _token_expiry client0).
Proof.
  cbv zeta. split.
  - pose proof (token_failure_state (builtins := decimal) 4000 (Fails ClientError)
                  client_cached EleringConnectionError eq_refl) as H.
    cbv zeta in H. destruct H as (_ & _ & _ & _ & H).
    split; [reflexivity |]. apply H. discriminate.
  - pose proof (token_failure_state (builtins := decimal) 10 token_huge
                  client0 OverflowError eq_refl) as H.
    cbv zeta in H. destruct H as (_ & _ & He & _ & _).
    split; [reflexivity |]. split; [reflexivity | exact He].
Defined.

Lemma token_reused_until_expiry_witness :
  let self' := (async_get_access_token (builtins := decimal) 10 token_ok client0).1.2 in
  _access_token self' = Some (JStr "tok-1") /\
  async_get_access_token (builtins := decimal) 3000 (Fails ClientError) self' =
    (Ok (JStr "tok-1"), self', []).
Proof.
  cbv zeta.
  pose proof (token_reused_until_expiry (builtins := decimal) 10 token_ok client0
                (JStr "tok-1") eq_refl) as H.
  cbv zeta in H. destruct H as [Ha Hb].
  split; [exact Ha | apply Hb; reflexivity].
Defined.

(** A token granted for exactly 30 seconds at the reading 0.1: the
    expiry kept is [0.1 + 30 - 30], which is above 0.1 as floats round,
    so that a call at the same reading returns the token again. *)
Example margin_rounds_up :
  let run := async_get_access_token (builtins := decimal) 0.1 token_short client0 in
  run.1.1 = Ok (JStr "tok-3") /\
  (0.1 <? _token_expiry run.1.2)%float = true /\
  async_get_access_token (builtins := decimal) 0.1 (Fails ClientError) run.1.2 =
    (Ok (JStr "tok-3"), run.1.2, []).
Proof. cbv zeta. repeat split. Qed.

Lemma auth_failure_forgets_token_witness :
  let run := _async_request (builtins := decimal) env_forbidden
               "GET" METERING_DATA_PATH [] client_cached in
  run.1.1 = Raise EleringAuthError /\
  _access_token run.1.2 = None /\
  (async_get_access_token (builtins := decimal) 21 token_ok run.1.2).2 =
    [TokenPost "id" "secret"].
Proof.
  cbv zeta.
  pose proof (auth_failure_forgets_token (builtins := decimal) env_forbidden
                "GET" METERING_DATA_PATH [] client_cached 403 ∅ "Forbidden" None
                eq_refl (or_intror eq_refl) eq_refl) as H.
  cbv zeta in H. destruct H as (Hr & Ha & Hn).
  split; [exact Hr |]. split; [exact Ha |]. apply Hn.
Defined.

Lemma requests_spaced_witness :
  let run := _async_request (builtins := decimal) env_ok
               "GET" METERING_DATA_PATH [] client0 in
  (_async_enforce_rate_limit 12 run.1.2).2 =
    [Sleep (mono_done env_ok + 5 - 12)%float] /\
  (_async_enforce_rate_limit 16 run.1.2).2 = [].
Proof.
  cbv zeta.
  pose proof (requests_spaced (builtins := decimal) env_ok "GET" METERING_DATA_PATH []
                client0 200 rl_headers "[]" (Some (JList [])) 12 eq_refl eq_refl) as H12.
  pose proof (requests_spaced (builtins := decimal) env_ok "GET" METERING_DATA_PATH []
                client0 200 rl_headers "[]" (Some (JList [])) 16 eq_refl eq_refl) as H16.
  cbv zeta in H12, H16.
  destruct H12 as [H12 _]. destruct H16 as [_ H16].
  split.
  - apply H12. reflexivity.
  - apply H16. reflexivity.
Defined.

Lemma merge_in_two_batches_witness :
  _merge (_merge store0 [p1]) [p2; p1] = _merge store0 ([p1] ++ [p2; p1]) /\
  merge_added store0 ([p1] ++ [p2; p1]) =
    merge_added store0 [p1] + merge_added (_merge store0 [p1]) [p2; p1].
Proof.
  apply (merge_in_two_batches store0 [p1] [p2; p1]).
  apply NoDup_singleton.
Defined.

Lemma fetch_no_days_does_nothing_witness :
  async_fetch_history upstream_p0 store0 0 env0 tt None =
  {| fr_outcome := Ok tt; fr_self := store0; fr_world := tt;
     fr_persisted := None; fr_all_new := []; fr_requests := [];
     fr_saves := [] |}.
Proof.
  apply (fetch_no_days_does_nothing upstream_p0 store0 0 env0 tt None). lia.
Defined.

(** One day of history against the upstream that answers [p1]. *)
Lemma fetch_p1_points (env : fetch_env) (persisted : option StoredDoc) :
  now_start env = 20100 * day ->
  fr_all_new (async_fetch_history upstream_p1 store0 1 env tt persisted) = [p1].
Proof.
  intros Hnow.
  pose proof (async_fetch_history_loop upstream_p1 store0 1 env tt persisted) as H.
  cbv zeta in H. destruct H as [_ ->].
  rewrite Hnow, windows_of_1_day. reflexivity.
Qed.

Lemma save_failure_keeps_merge_witness :
  let r := async_fetch_history upstream_p1 store0 1 env_save_fails tt None in
  fr_outcome r = Raise OSError /\
  fr_self r = _merge store0 (fr_all_new r) /\
  fr_persisted r = None.
Proof.
  cbv zeta.
  apply (save_failure_keeps_merge upstream_p1 store0 1 env_save_fails tt None OSError).
  - reflexivity.
  - rewrite fetch_p1_points by reflexivity. discriminate.
Defined.

Lemma fetch_then_reload_witness :
  let r := async_fetch_history upstream_p1 store0 1 env0 tt None in
  _measurements (async_load (History.init "38ZEE-00000000-A") (fr_persisted r)) =
    _measurements (fr_self r) /\
  _last_fetch (async_load (History.init "38ZEE-00000000-A") (fr_persisted r)) =
    Some (now_save env0) /\
  (fr_persisted r ≫= doc_point_count) =
    Some (Z.of_nat (length (_measurements (fr_self r)))).
Proof.
  cbv zeta.
  apply (fetch_then_reload upstream_p1 store0 1 env0 tt None "38ZEE-00000000-A").
  - reflexivity.
  - rewrite fetch_p1_points by reflexivity. discriminate.
Defined.

(** An update of the coordinator on the two measurements of [env_data]:
    the later one is the latest, though the response has it first. *)
Example update_returns_later_point :
  let run := _async_update_data (builtins := decimal) strftime_utc no_other_keys
               env_data "38ZEE-00000000-A" "HOUR" (20100 * day) client0 in
  run.1.1 = Latest (flat "2025-01-01T01:00:00+0000") /\
  run.2 =
    [TokenPost "id" "secret";
     ApiRequest "GET" "https://test.example.com/api/public/v1/metering-data"
       (JStr "tok-1")
       [("startDateTime", "2025-01-11T22:00:00+0000");
        ("endDateTime", "2025-01-12T00:00:00+0000");
        ("resolution", "HOUR");
        ("meteringPointEics", "38ZEE-00000000-A")]].
Proof. vm_compute. split; reflexivity. Qed.

Example update_fails_on_auth_error :
  (_async_update_data (builtins := decimal) strftime_utc no_other_keys
     env_forbidden "38ZEE-00000000-A" "HOUR" (20100 * day) client_cached).1.1 =
  UpdateFailed EleringAuthError.
Proof. vm_compute. reflexivity. Qed.

Example update_returns_empty_on_no_data :
  (_async_update_data (builtins := decimal) strftime_utc no_other_keys
     env_ok "38ZEE-00000000-A" "HOUR" (20100 * day) client0).1.1 =
  Latest (JDict []).
Proof. vm_compute. reflexivity. Qed.

Lemma metering_data_sorted_witness :
  let run := async_get_metering_data (builtins := decimal) strftime_utc no_other_keys
               env_data "38ZEE-00000000-A" (20100 * day - timedelta_hours 2)
               (20100 * day) "HOUR" client0 in
  exists l',
    run.1.1 = Ok l' /\
    l' ≡ₚ [flat "2025-01-01T01:00:00+0000"; flat "2025-01-01T00:00:00+0000"] /\
    sorted_by_ts l'.
Proof.
  cbv zeta.
  pose proof (metering_data_sorted (builtins := decimal) strftime_utc no_other_keys
                env_data "38ZEE-00000000-A" (20100 * day - timedelta_hours 2)
                (20100 * day) "HOUR" client0) as H.
  cbv zeta in H. destruct H as (_ & _ & _ & H).
  exact (H _ eq_refl eq_refl).
Defined.

Lemma coordinator_returns_latest_witness :
  let run := _async_update_data (builtins := decimal) strftime_utc no_other_keys
               env_data "38ZEE-00000000-A" "HOUR" (20100 * day) client0 in
  let l := [flat "2025-01-01T01:00:00+0000"; flat "2025-01-01T00:00:00+0000"] in
  exists point,
    run.1.1 = Latest point /\ point ∈ l /\
    forall q, q ∈ l -> String.leb (ts_string q) (ts_string point) = true.
Proof.
  cbv zeta.
  pose proof (coordinator_returns_latest (builtins := decimal) strftime_utc
                no_other_keys env_data "38ZEE-00000000-A" "HOUR" (20100 * day)
                client0) as H.
  cbv zeta in H. destruct H as (_ & _ & _ & H).
  destruct (H _ [flat "2025-01-01T01:00:00+0000"; flat "2025-01-01T00:00:00+0000"]
              eq_refl eq_refl eq_refl eq_refl) as [_ Hlast].
  apply Hlast. discriminate.
Defined.

(** The first step of the flow with good credentials and one metering
    point; the host is given with a slash at its end. *)
Example step_user_selects :
  let out := async_step_user (builtins := decimal) strftime_utc
               "https://test.example.com/" "id" "secret" 10 token_ok
               env_points (20100 * day) in
  (exists client,
     out.1 = SelectEic client (JList [metering_point]) [JStr "38ZEE-00000000-A"]) /\
  out.2 =
    [TokenPost "id" "secret";
     ApiRequest "GET" "https://test.example.com/api/public/v1/metering-point-eics"
       (JStr "tok-1")
       [("startDateTime", "2025-01-12T00:00:00+0000");
        ("endDateTime", "2025-01-12T00:00:00+0000")]].
Proof. vm_compute. split; [eexists |]; reflexivity. Qed.

(** A list of points that holds a number: the loop of the selection
    form calls [point.get] on it, and [AttributeError] gets out of the
    step. *)
Example step_user_number_among_points :
  (async_step_user (builtins := decimal) strftime_utc
     "https://test.example.com" "id" "secret" 10 token_ok
     env_points_number (20100 * day)).1 = Propagates AttributeError.
Proof. vm_compute. reflexivity. Qed.

Example step_user_invalid_auth :
  async_step_user (builtins := decimal) strftime_utc
    "https://test.example.com" "id" "wrong" 10 (Response 401 ∅ "" None)
    env_points (20100 * day) =
  (ShowForm "invalid_auth", [TokenPost "id" "wrong"]).
Proof. vm_compute. reflexivity. Qed.

(** tests/test_rate_limiter.py: the snapshot before any request, and
    after a capture of the three headers. *)
Example test_rate_limit_info_initial_state :
  let info := rate_limit_info 1 (20100 * day) client0 in
  info !! "last_request_time" = Some INone /\
  info !! "next_allowed_time" = Some INone /\
  info !! "blocked_requests_count" = Some (IInt 0) /\
  info !! "rate_limit_limit" = None.
Proof. vm_compute. repeat split. Qed.

Example test_capture_then_info :
  let info := rate_limit_info 1 (20100 * day)
                (_capture_rate_limit_headers (builtins := decimal) rl_headers client0).1.2 in
  info !! "rate_limit_limit" = Some (IInt 100) /\
  info !! "rate_limit_remaining" = Some (IInt 42) /\
  info !! "rate_limit_reset" = Some (IInt 1700000000).
Proof. vm_compute. repeat split. Qed.

End MoreSamples.
